(** * AutoThings: the detection-and-decision loop of [automation_tool]

    A shallow embedding of [automation_tool/detection.py],
    [automation_tool/clicker.py] and [automation_tool/automation_engine.py],
    with the dataclasses of [automation_tool/config_loader.py] they read.

    Conventions.
    - Python [int] is [Z]; Python [float] is idealised as an exact rational
      [Q] (timestamps, thresholds, ratios, correlation scores).
    - A numpy image is a list of rows; [shape0] is the number of rows,
      [shape1] the length of a row, [size] the number of elements.
    - Python exceptions are the type [exn]; a method that may raise and
      mutates [self] is a computation [M S A := S -> result A * S]: the
      state reached when the exception left the method is kept, as in Python.
    - What the program reads from outside (the screen, the template files,
      the wall clock, which click backends were importable) is a [World];
      what OpenCV computes on pixels, and how it reads a bound handed to it
      as a numpy array, is the class [OpenCV].
    - The position of the mouse cursor is not part of the state, and a
      click backend that was importable is taken to do what it is asked. *)

From Stdlib Require Import ZArith QArith Qminmax Lia List Bool String.
From stdpp Require Import base option list gmap strings.

Local Open Scope Z_scope.

(** ** Exceptions and the state-and-exception monad *)

Inductive exn : Type :=
| KeyError
| FileNotFoundError
| RuntimeError
| ValueError
| OverflowError
| ZeroDivisionError
| CvError              (* cv2.error *)
| ScreenShotError.     (* mss.exception.ScreenShotError *)

Inductive result (A : Type) : Type :=
| Ok (a : A)
| Raise (e : exn).
Arguments Ok {A} a.
Arguments Raise {A} e.

Definition M (S A : Type) : Type := S -> result A * S.

Definition ret {S A} (a : A) : M S A := fun s => (Ok a, s).

Definition bind {S A B} (c : M S A) (k : A -> M S B) : M S B :=
  fun s => match c s with
           | (Ok a, s') => k a s'
           | (Raise e, s') => (Raise e, s')
           end.

Definition raise {S A} (e : exn) : M S A := fun s => (Raise e, s).

Definition lift {S A} (r : result A) : M S A := fun s => (r, s).

Definition gets {S A} (f : S -> A) : M S A := fun s => (Ok (f s), s).

Definition modify {S} (f : S -> S) : M S unit := fun s => (Ok tt, f s).

(** [try: c except Exception as exc: h exc] *)
Definition try_except {S A} (c : M S A) (h : exn -> M S A) : M S A :=
  fun s => match c s with
           | (Ok a, s') => (Ok a, s')
           | (Raise e, s') => h e s'
           end.

(** [try: c finally: f] *)
Definition try_finally {S A} (c : M S A) (f : M S unit) : M S A :=
  fun s => let '(r, s') := c s in
           match f s' with
           | (Ok _, s'') => (r, s'')
           | (Raise e, s'') => (Raise e, s'')
           end.

(** Run a computation of a component on the field that holds it. *)
Definition zoom {S T A} (get : S -> T) (set : T -> S -> S) (c : M T A) : M S A :=
  fun s => let '(r, t') := c (get s) in (r, set t' s).

Declare Scope py_scope.
Delimit Scope py_scope with py.
Notation "x <- c ;; k" := (bind c (fun x => k))
  (at level 100, c at next level, right associativity) : py_scope.
Notation "c ;;; k" := (bind c (fun _ => k))
  (at level 100, right associativity) : py_scope.
Local Open Scope py_scope.

Ltac run :=
  unfold bind, ret, raise, lift, gets, modify, try_except, try_finally, zoom; cbn.

Definition result_bind {A B} (r : result A) (k : A -> result B) : result B :=
  match r with
  | Ok a => k a
  | Raise e => Raise e
  end.

(** ** numpy arrays *)

Definition array (A : Type) : Type := list (list A).

Definition shape0 {A} (a : array A) : nat := length a.
Definition shape1 {A} (a : array A) : nat := length (hd [] a).
Definition size {A} (a : array A) : nat := length (concat a).

Definition px3 : Type := Z * Z * Z.
Definition px4 : Type := Z * Z * Z * Z.

(** The integers of 32 bits, and the triples of such. *)
Definition int32 (v : Z) : Prop := - 2147483648 <= v < 2147483648.

Definition int32_triple (b : px3) : Prop :=
  let '(b0, b1, b2) := b in int32 b0 /\ int32 b1 /\ int32 b2.

(** ** config_loader.py: the dataclasses *)

Module Point.
Record t : Type := mk { x : Z; y : Z }.
End Point.

Module Region.
Record t : Type := mk { left : Z; top : Z; width : Z; height : Z }.

(** The dict [{"left": .., "top": .., "width": .., "height": ..}]. *)
Definition to_monitor (r : t) : t := r.
End Region.

Module HSVRange.
Record t : Type := mk { lower : px3; upper : px3 }.
End HSVRange.

Module TemplateConfig.
Record t : Type := mk { name : string; path : string; threshold : Q }.
End TemplateConfig.

Module TradeConfig.
Record t : Type := mk {
  name : string;
  region : Region.t;
  start_button : Point.t;
  start_template : option string;
  start_gray_template : option string;
  red_ratio_threshold : Q }.
End TradeConfig.

Module TimingConfig.
Record t : Type := mk {
  cycle_delay : Q;
  collect_interval : Q;
  refresh_interval : Q;
  post_click_delay : Q }.
End TimingConfig.

Module ClickConfig.
Record t : Type := mk {
  use_win32 : bool;
  win32_press_duration : Z;
  move_cursor_back : bool }.
End ClickConfig.

Module AppConfig.
Record t : Type := mk {
  monitor : Region.t;
  trades : list TradeConfig.t;
  collect_button : Point.t;
  refresh_button : Point.t;
  hsv_ranges : list HSVRange.t;
  templates : gmap string TemplateConfig.t;
  timing : TimingConfig.t;
  clicks : ClickConfig.t;
  cycle_delay : Q }.
End AppConfig.

(** ** The outside world *)

(** What [Path.exists] and [cv2.imread(.., IMREAD_GRAYSCALE)] find at a
    path: nothing, a file [imread] cannot decode (it returns [None]), or a
    grayscale picture. *)
Inductive file : Type :=
| Absent
| Undecodable
| Picture (image : array Z).

Record World : Type := {
  (** [mss.mss().grab(monitor)] at the n-th capture: a BGRA screenshot of
      the asked rectangle, or an exception. *)
  sct_grab : nat -> Region.t -> result (array px4);
  (** the file system, by path *)
  files : string -> file;
  (** [time.time()] at the n-th reading *)
  time_time : nat -> Q;
  (** whether [import pyautogui] and [import win32api, win32con] worked *)
  pyautogui : bool;
  win32api : bool }.

(** The functions of OpenCV that work on pixel values.  [ccoeff_normed
    image templ y x] is the [TM_CCOEFF_NORMED] score of [templ] laid on
    [image] with its corner at row [y], column [x].

    [boundaries lower upper] is what [cv2.inRange] compares the pixels
    with when it is handed [np.array(lower)] and [np.array(upper)] for two
    tuples of Python integers: the tuples themselves when their components
    fit 32 bits.  Beyond that numpy chooses a wider element type, and the
    bindings of OpenCV cut the values to 32 bits or refuse the arrays
    ([None]), from one version to the next. *)
Class OpenCV : Type := {
  bgr2hsv : px3 -> px3;
  bgr2gray : px3 -> Z;
  ccoeff_normed : array Z -> array Z -> nat -> nat -> Q;
  boundaries : px3 -> px3 -> option (px3 * px3);
  boundaries_int32 :
    forall lower upper,
      int32_triple lower -> int32_triple upper -> boundaries lower upper = Some (lower, upper) }.

(** [cv2.cvtColor]: asserts that the source is not empty, then converts
    pixel by pixel. *)
Definition cvtColor {A B} (code : A -> B) (src : array A) : result (array B) :=
  if (size src =? 0)%nat then Raise CvError else Ok (map (map code) src).

Definition bgra2bgr (p : px4) : px3 := let '(b, g, r, _) := p in (b, g, r).

(** ** detection.py *)

Module TradeStatus.
Record t : Type := mk {
  name : string;
  red_ratio : Q;
  has_red_gem : bool;
  start_active : option bool;
  start_disabled : option bool;
  template_score : option Q }.
End TradeStatus.


(** Python's two-argument [max] on floats: the first argument unless the
    second is strictly greater. *)
Definition py_max (a b : Q) : Q := if Qle_bool b a then a else b.

(** [score or 0.0] for an optional float. *)
Definition or_zero (score : option Q) : Q :=
  match score with
  | Some q => if Qeq_bool q 0 then 0%Q else q
  | None => 0%Q
  end.

(** Truth value of an [Optional[str]]. *)
Definition truthy (s : option string) : bool :=
  match s with
  | Some t => negb (String.eqb t "")
  | None => false
  end.

(** The state of a [DetectionManager]: the template cache of its
    [TemplateMatcher], the frames it kept, and how many screenshots its
    [ScreenGrabber] has taken. *)
Module Detection.
Record state : Type := mk {
  _cache : gmap string (array Z * Q);
  _last_frames : gmap string (array px3);
  captures : nat }.

Definition set_cache (f : gmap string (array Z * Q) -> gmap string (array Z * Q))
    (s : state) : state :=
  mk (f (_cache s)) (_last_frames s) (captures s).
Definition set_last_frames (f : gmap string (array px3) -> gmap string (array px3))
    (s : state) : state :=
  mk (_cache s) (f (_last_frames s)) (captures s).
Definition tick (s : state) : state :=
  mk (_cache s) (_last_frames s) (S (captures s)).

Definition init : state := mk ∅ ∅ 0%nat.
End Detection.

Module ScreenGrabber.

Definition _bounded_region (monitor region : Region.t) : Region.t :=
  let left := Z.max (Region.left monitor) (Region.left region) in
  let top := Z.max (Region.top monitor) (Region.top region) in
  let right := Z.min (Region.left monitor + Region.width monitor)
                     (Region.left region + Region.width region) in
  let bottom := Z.min (Region.top monitor + Region.height monitor)
                      (Region.top region + Region.height region) in
  let width := Z.max 1 (right - left) in
  let height := Z.max 1 (bottom - top) in
  Region.mk left top width height.

Definition grab (w : World) (monitor region : Region.t)
  : M Detection.state (array px3) :=
  let bounded := _bounded_region monitor region in
  n <- gets Detection.captures ;;
  modify Detection.tick ;;;
  raw <- lift (sct_grab w n bounded) ;;
  lift (cvtColor bgra2bgr raw).

Definition grab_monitor (w : World) (monitor : Region.t)
  : M Detection.state (array px3) :=
  n <- gets Detection.captures ;;
  modify Detection.tick ;;;
  raw <- lift (sct_grab w n (Region.to_monitor monitor)) ;;
  lift (cvtColor bgra2bgr raw).

End ScreenGrabber.

Module ColorDetector.
Section ColorDetector.
Context {cv : OpenCV}.

Definition within (lowerb upperb p : px3) : bool :=
  let '(l0, l1, l2) := lowerb in
  let '(u0, u1, u2) := upperb in
  let '(p0, p1, p2) := p in
  (l0 <=? p0) && (p0 <=? u0) && (l1 <=? p1) && (p1 <=? u1) && (l2 <=? p2) && (p2 <=? u2).

(** [cv2.inRange(src, np.array(lowerb), np.array(upperb))]: the call is
    refused when the bounds are; otherwise the mask is 255 where every
    channel is within the bounds as they are read, bounds included, and 0
    elsewhere. *)
Definition inRange (src : array px3) (lowerb upperb : px3) : result (array Z) :=
  match boundaries lowerb upperb with
  | Some (l, u) => Ok (map (map (fun p => if within l u p then 255 else 0)) src)
  | None => Raise CvError
  end.

(** [cv2.bitwise_or] of two arrays of the same shape. *)
Definition bitwise_or (a b : array Z) : array Z := zip_with (zip_with Z.lor) a b.

(** [np.zeros(a.shape[:2])] *)
Definition zeros_like {A} (a : array A) : array Z := map (map (fun _ => 0)) a.

Definition count_nonzero (a : array Z) : nat :=
  length (List.filter (fun v => negb (v =? 0)) (concat a)).

(** The loop of [red_ratio], from the mask built so far. *)
Fixpoint red_mask_loop (ranges : list HSVRange.t) (hsv : array px3) (mask : array Z)
  : result (array Z) :=
  match ranges with
  | [] => Ok mask
  | hsv_range :: rest =>
      result_bind
        (inRange hsv (HSVRange.lower hsv_range) (HSVRange.upper hsv_range))
        (fun section => red_mask_loop rest hsv (bitwise_or mask section))
  end.

(** The mask after all ranges. *)
Definition red_mask (ranges : list HSVRange.t) (hsv : array px3) : result (array Z) :=
  red_mask_loop ranges hsv (zeros_like hsv).

(** Float division: [ZeroDivisionError] on a zero divisor. *)
Definition float_div (a b : nat) : result Q :=
  if (b =? 0)%nat then Raise ZeroDivisionError
  else Ok (inject_Z (Z.of_nat a) / inject_Z (Z.of_nat b))%Q.

Definition red_ratio (ranges : list HSVRange.t) (frame_bgr : array px3) : result Q :=
  result_bind (cvtColor bgr2hsv frame_bgr) (fun hsv =>
  result_bind (red_mask ranges hsv) (fun mask =>
  float_div (count_nonzero mask) (size mask))).

Definition has_red (ranges : list HSVRange.t) (frame_bgr : array px3) (threshold : Q)
  : result bool :=
  result_bind (red_ratio ranges frame_bgr) (fun ratio => Ok (Qle_bool threshold ratio)).

End ColorDetector.
End ColorDetector.

Module TemplateMatcher.
Section TemplateMatcher.
Context {cv : OpenCV} (w : World).
Context (templates : gmap string TemplateConfig.t).

Definition is_configured : bool := negb (bool_decide (templates = ∅)).

Definition _load_template (name : string) : M Detection.state (array Z * Q) :=
  match templates !! name with
  | None => raise KeyError
  | Some config =>
      cache <- gets Detection._cache ;;
      match cache !! name with
      | Some entry => ret entry
      | None =>
          match files w (TemplateConfig.path config) with
          | Absent => raise FileNotFoundError
          | Undecodable => raise RuntimeError
          | Picture image =>
              let entry := (image, TemplateConfig.threshold config) in
              modify (Detection.set_cache (fun c => <[name := entry]> c)) ;;;
              ret entry
          end
      end
  end.

(** [cv2.matchTemplate(image, templ, TM_CCOEFF_NORMED)]: one score for
    every place the template fits; an image smaller than the template is
    refused. *)
Definition matchTemplate (image templ : array Z) : result (array Q) :=
  if (shape0 image <? shape0 templ)%nat || (shape1 image <? shape1 templ)%nat
  then Raise CvError
  else Ok (map (fun y => map (fun x => ccoeff_normed image templ y x)
                             (seq 0 (shape1 image - shape1 templ + 1)))
               (seq 0 (shape0 image - shape0 templ + 1))).

(** [cv2.minMaxLoc], without the two locations: the smallest and the
    greatest value; an empty array is refused. *)
Definition minMaxLoc (src : array Q) : result (Q * Q) :=
  match concat src with
  | [] => Raise CvError
  | v :: vs =>
      Ok (fold_left (fun m x => if Qle_bool m x then m else x) vs v,
          fold_left (fun m x => if Qle_bool x m then m else x) vs v)
  end.

Definition match_ (frame_bgr : array px3) (template_name : string)
  : M Detection.state (bool * Q) :=
  entry <- _load_template template_name ;;
  let '(template, threshold) := entry in
  frame_gray <- lift (cvtColor bgr2gray frame_bgr) ;;
  if (shape0 frame_gray <? shape0 template)%nat || (shape1 frame_gray <? shape1 template)%nat
  then ret (false, 0%Q)
  else
    res <- lift (matchTemplate frame_gray template) ;;
    mm <- lift (minMaxLoc res) ;;
    let '(_min_val, max_val) := mm in
    ret (Qle_bool threshold max_val, max_val).

End TemplateMatcher.
End TemplateMatcher.

Module DetectionManager.
Section DetectionManager.
Context {cv : OpenCV} (w : World) (config : AppConfig.t).

Definition neutral (name : string) : TradeStatus.t :=
  TradeStatus.mk name 0%Q false None None None.

Definition evaluate_trade (trade : TradeConfig.t) : M Detection.state TradeStatus.t :=
  frame <- ScreenGrabber.grab w (AppConfig.monitor config) (TradeConfig.region trade) ;;
  modify (Detection.set_last_frames (fun d => <[TradeConfig.name trade := frame]> d)) ;;;
  ratio <- lift (ColorDetector.red_ratio (AppConfig.hsv_ranges config) frame) ;;
  let has_red := Qle_bool (TradeConfig.red_ratio_threshold trade) ratio in
  r1 <- (if truthy (TradeConfig.start_template trade)
            && TemplateMatcher.is_configured (AppConfig.templates config)
         then
           m <- TemplateMatcher.match_ w (AppConfig.templates config) frame
                  (default ""%string (TradeConfig.start_template trade)) ;;
           let '(active, score_val) := m in
           ret (Some active, Some score_val)
         else ret (None, None)) ;;
  let '(start_active, score) := r1 in
  r2 <- (if truthy (TradeConfig.start_gray_template trade)
            && TemplateMatcher.is_configured (AppConfig.templates config)
         then
           m <- TemplateMatcher.match_ w (AppConfig.templates config) frame
                  (default ""%string (TradeConfig.start_gray_template trade)) ;;
           let '(disabled, score_val) := m in
           ret (Some disabled, Some (py_max (or_zero score) score_val))
         else ret (None, score)) ;;
  let '(start_disabled, score) := r2 in
  ret (TradeStatus.mk (TradeConfig.name trade) ratio has_red
                      start_active start_disabled score).

Definition capture_monitor : M Detection.state (array px3) :=
  ScreenGrabber.grab_monitor w (AppConfig.monitor config).

(** The loop of [evaluate_all], with the list built so far. *)
Fixpoint evaluate_loop (trades : list TradeConfig.t) (statuses : list TradeStatus.t)
  : M Detection.state (list TradeStatus.t) :=
  match trades with
  | [] => ret statuses
  | trade :: rest =>
      status <- try_except (evaluate_trade trade)
                           (fun _exc => ret (neutral (TradeConfig.name trade))) ;;
      evaluate_loop rest (statuses ++ [status])
  end.

Definition evaluate_all : M Detection.state (list TradeStatus.t) :=
  evaluate_loop (AppConfig.trades config) [].

End DetectionManager.
End DetectionManager.

(** ** clicker.py and automation_engine.py *)

(** The state of an [AutomationEngine]: its [DetectionManager], the
    published statuses, the two timers, how often the clock has been read,
    and the clicks its [ClickExecutor] has injected so far, oldest first. *)
Module Engine.
Record state : Type := mk {
  _detection : Detection.state;
  _last_statuses : list TradeStatus.t;
  _last_collect_ts : Q;
  _last_refresh_ts : Q;
  clock_reads : nat;
  injected : list Point.t }.

Definition set_detection (d : Detection.state) (s : state) : state :=
  mk d (_last_statuses s) (_last_collect_ts s) (_last_refresh_ts s)
     (clock_reads s) (injected s).
Definition set_last_statuses (l : list TradeStatus.t) (s : state) : state :=
  mk (_detection s) l (_last_collect_ts s) (_last_refresh_ts s)
     (clock_reads s) (injected s).
Definition set_last_collect_ts (t : Q) (s : state) : state :=
  mk (_detection s) (_last_statuses s) t (_last_refresh_ts s)
     (clock_reads s) (injected s).
Definition set_last_refresh_ts (t : Q) (s : state) : state :=
  mk (_detection s) (_last_statuses s) (_last_collect_ts s) t
     (clock_reads s) (injected s).
Definition read_clock (s : state) : state :=
  mk (_detection s) (_last_statuses s) (_last_collect_ts s) (_last_refresh_ts s)
     (S (clock_reads s)) (injected s).
Definition inject (p : Point.t) (s : state) : state :=
  mk (_detection s) (_last_statuses s) (_last_collect_ts s) (_last_refresh_ts s)
     (clock_reads s) (injected s ++ [p]).
End Engine.

Section Time.
Context (w : World).

(** [time.time()] *)
Definition time_now : M Engine.state Q :=
  n <- gets Engine.clock_reads ;;
  modify Engine.read_clock ;;;
  ret (time_time w n).

End Time.

(** The least and the greatest number of nanoseconds of a [_PyTime_t]. *)
Definition PyTime_MIN : Z := - 9223372036854775808.
Definition PyTime_MAX : Z := 9223372036854775807.

(** What [time.sleep(secs)] of CPython makes of its argument: the length
    is converted to nanoseconds, which must fit a [_PyTime_t]
    ([OverflowError] otherwise); a negative length is then a
    [ValueError]. *)
Definition sleep_check (secs : Q) : result unit :=
  let ns := (secs * 1000000000)%Q in
  if Qle_bool (inject_Z PyTime_MIN) ns && Qle_bool ns (inject_Z PyTime_MAX)
  then if Qle_bool 0 secs then Ok tt else Raise ValueError
  else Raise OverflowError.

(** [time.sleep(secs)] *)
Definition time_sleep (secs : Q) : M Engine.state unit := lift (sleep_check secs).

Module ClickExecutor.
Section ClickExecutor.
Context (w : World) (config : ClickConfig.t).

Definition _win32_available : bool := win32api w.
Definition _use_win32 : bool := ClickConfig.use_win32 config && _win32_available.

(** [pyautogui.click(x=.., y=..)] *)
Definition pyautogui_click (point : Point.t) : M Engine.state unit :=
  modify (Engine.inject point).

Definition _pyautogui_click (point : Point.t) : M Engine.state unit :=
  if negb (pyautogui w) then raise RuntimeError
  else pyautogui_click point.

(** [win32api.GetCursorPos], [SetCursorPos] and [mouse_event].  The
    cursor is where [SetCursorPos] has put it when the button is pressed
    and released; the click is counted at the release. *)
Definition GetCursorPos : M Engine.state unit := ret tt.
Definition SetCursorPos : M Engine.state unit := ret tt.
Definition mouse_event_LEFTDOWN : M Engine.state unit := ret tt.
Definition mouse_event_LEFTUP (point : Point.t) : M Engine.state unit :=
  modify (Engine.inject point).

(** [max(self._config.win32_press_duration / 1000.0, 0.01)] *)
Definition press : Q :=
  py_max (inject_Z (ClickConfig.win32_press_duration config) / 1000) (1 # 100).

Definition _win32_click (point : Point.t) : M Engine.state unit :=
  if negb _win32_available then raise RuntimeError
  else
    GetCursorPos ;;;
    try_finally
      (SetCursorPos ;;;
       time_sleep press ;;;
       mouse_event_LEFTDOWN ;;;
       time_sleep press ;;;
       mouse_event_LEFTUP point)
      (if ClickConfig.move_cursor_back config then SetCursorPos else ret tt).

Definition click (point : Point.t) (pause : option Q) : M Engine.state unit :=
  (if _use_win32 then _win32_click point else _pyautogui_click point) ;;;
  match pause with
  | Some secs => if Qeq_bool secs 0 then ret tt else time_sleep secs
  | None => ret tt
  end.

End ClickExecutor.
End ClickExecutor.

(** What a turn of the loop of [_run_loop] finds in [_stop_event] and
    [_pause_event]. *)
Inductive turn : Type :=
| Stop       (* _stop_event.is_set() *)
| Paused     (* not _pause_event.is_set() *)
| Running.

Module AutomationEngine.
Section AutomationEngine.
Context {cv : OpenCV} (w : World) (config : AppConfig.t).

(** [__init__] *)
Definition init : Engine.state :=
  Engine.mk Detection.init [] 0%Q 0%Q 0%nat [].

Definition _update_statuses (statuses : list TradeStatus.t) : M Engine.state unit :=
  modify (Engine.set_last_statuses statuses).

Definition _click (point : Point.t) : M Engine.state unit :=
  ClickExecutor.click w (AppConfig.clicks config) point None.

Definition post_click_delay : Q := TimingConfig.post_click_delay (AppConfig.timing config).

(** The loop of [_handle_trades] over the zipped pairs. *)
Fixpoint _handle_trades_loop (pairs : list (TradeConfig.t * TradeStatus.t))
    (any_click : bool) : M Engine.state bool :=
  match pairs with
  | [] => ret any_click
  | (trade, status) :: rest =>
      any_click' <-
        (if TradeStatus.has_red_gem status then
           match TradeStatus.start_active status with
           | None | Some true =>
               _click (TradeConfig.start_button trade) ;;;
               time_sleep post_click_delay ;;;
               ret true
           | Some false => ret any_click
           end
         else ret any_click) ;;
      _handle_trades_loop rest any_click'
  end.

Definition _handle_trades (statuses : list TradeStatus.t) : M Engine.state bool :=
  _handle_trades_loop (zip (AppConfig.trades config) statuses) false.

Definition _handle_collect : M Engine.state unit :=
  now <- time_now w ;;
  let interval := TimingConfig.collect_interval (AppConfig.timing config) in
  if Qle_bool interval 0 then ret tt
  else
    last <- gets Engine._last_collect_ts ;;
    if Qle_bool interval (now - last) then
      _click (AppConfig.collect_button config) ;;;
      modify (Engine.set_last_collect_ts now) ;;;
      time_sleep post_click_delay
    else ret tt.

Definition _handle_refresh (statuses : list TradeStatus.t) (click_performed : bool)
  : M Engine.state unit :=
  now <- time_now w ;;
  let refresh_interval := TimingConfig.refresh_interval (AppConfig.timing config) in
  last <- gets Engine._last_refresh_ts ;;
  let refresh_due :=
    negb (Qle_bool refresh_interval 0) && Qle_bool refresh_interval (now - last) in
  let no_red := negb (existsb TradeStatus.has_red_gem statuses) in
  let disabled_flags := omap TradeStatus.start_disabled statuses in
  let all_disabled := (0 <? length disabled_flags)%nat && forallb id disabled_flags in
  if (no_red || all_disabled || refresh_due) && negb click_performed then
    _click (AppConfig.refresh_button config) ;;;
    modify (Engine.set_last_refresh_ts now) ;;;
    time_sleep post_click_delay
  else ret tt.

(** One turn of the [while] loop of [_run_loop] when the engine is not
    paused; [cycle_delay] is the value computed before the loop. *)
Definition cycle : M Engine.state unit :=
  let cycle_delay := py_max (AppConfig.cycle_delay config) (5 # 100) in
  cycle_start <- time_now w ;;
  statuses <- zoom Engine._detection Engine.set_detection
                   (DetectionManager.evaluate_all w config) ;;
  _update_statuses statuses ;;;
  click_performed <- _handle_trades statuses ;;
  _handle_collect ;;;
  _handle_refresh statuses click_performed ;;;
  t <- time_now w ;;
  let elapsed := (t - cycle_start)%Q in
  time_sleep (py_max (cycle_delay - elapsed) (1 # 100)).

(** [_run_loop].  The two events are set and cleared by other threads:
    the loop is run on what it finds at the top of each turn, and stops
    when it finds the stop event set (or when the readings end). *)
Fixpoint _run_loop (turns : list turn) : M Engine.state unit :=
  match turns with
  | [] => ret tt
  | Stop :: _ => ret tt
  | Paused :: rest => time_sleep (1 # 10) ;;; _run_loop rest
  | Running :: rest => cycle ;;; _run_loop rest
  end.

End AutomationEngine.
End AutomationEngine.

(** ** A concrete OpenCV and concrete worlds, to run the model

    No theorem below depends on these choices: they are stated for every
    [OpenCV] and every [World].  The instance follows the formulas of the
    OpenCV documentation for 8-bit images; its correlation score is the
    documented quotient with the square root taken to three decimals. *)

Module Sample.

Definition round_div (a b : Z) : Z := (2 * a + b) / (2 * b).

Definition hsv_of_bgr (p : px3) : px3 :=
  let '(b, g, r) := p in
  let v := Z.max r (Z.max g b) in
  let m := Z.min r (Z.min g b) in
  let s := if v =? 0 then 0 else round_div (255 * (v - m)) v in
  let h360 :=
    if v =? m then 0
    else if v =? r then round_div (60 * (g - b)) (v - m)
    else if v =? g then 120 + round_div (60 * (b - r)) (v - m)
    else 240 + round_div (60 * (r - g)) (v - m) in
  let h := if h360 <? 0 then h360 + 360 else h360 in
  (h / 2, s, v).

Definition gray_of_bgr (p : px3) : Z :=
  let '(b, g, r) := p in round_div (299 * r + 587 * g + 114 * b) 1000.

Definition window (image : array Z) (y x h w0 : nat) : array Z :=
  map (fun row => take w0 (drop x row)) (take h (drop y image)).

Definition total (a : array Z) : Z := fold_right Z.add 0 (concat a).

(** The entries of [a], each times the number of entries, minus their sum. *)
Definition centred (a : array Z) : list Z :=
  map (fun v => Z.of_nat (size a) * v - total a) (concat a).

Definition dot (u v : list Z) : Z := fold_right Z.add 0 (zip_with Z.mul u v).

Definition ccoeff (image templ : array Z) (y x : nat) : Q :=
  let t := centred templ in
  let i := centred (window image y x (shape0 templ) (shape1 templ)) in
  let den := Z.sqrt (dot t t * dot i i * 1000000) in
  if den =? 0 then 0%Q else ((1000000 * dot t i / den) # 1000)%Q.

(** Bounds whose components all fit 64 bits are cut to 32 bits, as the
    bindings of OpenCV 4 do with arrays of [int64]; any others are
    refused. *)
Definition int64 (v : Z) : bool :=
  (- 9223372036854775808 <=? v) && (v <? 9223372036854775808).

Definition to_int32 (v : Z) : Z := (v + 2147483648) mod 4294967296 - 2147483648.

Definition np_array (b : px3) : option px3 :=
  let '(b0, b1, b2) := b in
  if int64 b0 && int64 b1 && int64 b2
  then Some (to_int32 b0, to_int32 b1, to_int32 b2)
  else None.

Definition np_boundaries (lower upper : px3) : option (px3 * px3) :=
  match np_array lower, np_array upper with
  | Some l, Some u => Some (l, u)
  | _, _ => None
  end.

(** The instance; what it has to show is that bounds that fit 32 bits
    are read as they are. *)
#[export] Instance cv : OpenCV.
Proof.
  refine {| bgr2hsv := hsv_of_bgr;
            bgr2gray := gray_of_bgr;
            ccoeff_normed := ccoeff;
            boundaries := np_boundaries;
            boundaries_int32 := _ |}.
  assert (Hb : forall b, int32_triple b -> np_array b = Some b).
  { intros [[b0 b1] b2]. unfold int32_triple, int32, np_array, int64, to_int32.
    intros (H0 & H1 & H2).
    replace (- 9223372036854775808 <=? b0) with true by (symmetry; apply Z.leb_le; lia).
    replace (- 9223372036854775808 <=? b1) with true by (symmetry; apply Z.leb_le; lia).
    replace (- 9223372036854775808 <=? b2) with true by (symmetry; apply Z.leb_le; lia).
    replace (b0 <? 9223372036854775808) with true by (symmetry; apply Z.ltb_lt; lia).
    replace (b1 <? 9223372036854775808) with true by (symmetry; apply Z.ltb_lt; lia).
    replace (b2 <? 9223372036854775808) with true by (symmetry; apply Z.ltb_lt; lia).
    cbn [andb]. rewrite !Z.mod_small by lia. do 3 f_equal; lia. }
  intros lower upper Hl Hu. unfold np_boundaries. now rewrite (Hb _ Hl), (Hb _ Hu).
Defined.

Definition red_ranges : list HSVRange.t :=
  [ HSVRange.mk (0, 120, 70) (10, 255, 255);
    HSVRange.mk (170, 120, 70) (180, 255, 255) ].

Definition red : px3 := (0, 0, 255).
Definition grey : px3 := (90, 90, 90).
Definition red4 : px4 := (0, 0, 255, 255).
Definition grey4 : px4 := (90, 90, 90, 255).

Definition start_png : array Z := [[10; 200]; [200; 10]].

Definition trade_a : TradeConfig.t :=
  TradeConfig.mk "a" (Region.mk 0 0 1 1) (Point.mk 11 12) (Some "start"%string) None (1 # 100).
Definition trade_b : TradeConfig.t :=
  TradeConfig.mk "b" (Region.mk 10 10 2 2) (Point.mk 21 22) None None (1 # 100).

Definition timing (collect refresh : Q) : TimingConfig.t :=
  TimingConfig.mk (1 # 2) collect refresh (15 # 100).

Definition config (trades : list TradeConfig.t) (collect refresh : Q) : AppConfig.t :=
  AppConfig.mk (Region.mk 0 0 100 100) trades (Point.mk 500 600) (Point.mk 700 800)
    red_ranges
    {[ "start"%string := TemplateConfig.mk "start" "start.png" (8 # 10) ]}
    (timing collect refresh)
    (ClickConfig.mk false 40 true)
    (1 # 2).

(** A screen that shows red everywhere, a readable template file, a clock
    that reads 1000, 1001, ..., and a working pyautogui. *)
Definition world : World :=
  {| sct_grab := fun _ bounded =>
       Ok (repeat (repeat red4 (Z.to_nat (Region.width bounded)))
                  (Z.to_nat (Region.height bounded)));
     files := fun p => if String.eqb p "start.png" then Picture start_png else Absent;
     time_time := fun n => inject_Z (1000 + Z.of_nat n);
     pyautogui := true;
     win32api := false |}.

(** The same, with a screen that cannot be captured the first time. *)
Definition world_broken_once : World :=
  {| sct_grab := fun n bounded =>
       if (n =? 0)%nat then Raise ScreenShotError else sct_grab world n bounded;
     files := files world;
     time_time := time_time world;
     pyautogui := true;
     win32api := false |}.

(** The same as [world], with the template file missing. *)
Definition world_no_file : World :=
  {| sct_grab := sct_grab world;
     files := fun _ => Absent;
     time_time := time_time world;
     pyautogui := true;
     win32api := false |}.

(** The same as [world], with no click backend importable. *)
Definition world_no_backend : World :=
  {| sct_grab := sct_grab world;
     files := files world;
     time_time := time_time world;
     pyautogui := false;
     win32api := false |}.

(** [config], with a negative settle delay. *)
Definition config_negative_delay (trades : list TradeConfig.t) : AppConfig.t :=
  AppConfig.mk (Region.mk 0 0 100 100) trades (Point.mk 500 600) (Point.mk 700 800)
    red_ranges ∅
    (TimingConfig.mk (1 # 2) 300 60 (- (1 # 10)))
    (ClickConfig.mk false 40 true)
    (1 # 2).

End Sample.

(** ** Notions used in the statements *)

(** The rectangle [r] lies within the rectangle [monitor]. *)
Definition inside (monitor r : Region.t) : Prop :=
  Region.left monitor <= Region.left r /\
  Region.left r + Region.width r <= Region.left monitor + Region.width monitor /\
  Region.top monitor <= Region.top r /\
  Region.top r + Region.height r <= Region.top monitor + Region.height monitor.

(** The pixel at column [x] and row [y] is in the rectangle. *)
Definition contains (r : Region.t) (x y : Z) : Prop :=
  Region.left r <= x < Region.left r + Region.width r /\
  Region.top r <= y < Region.top r + Region.height r.

(** The two rectangles share at least one pixel. *)
Definition overlaps (monitor r : Region.t) : Prop :=
  Z.max (Region.left monitor) (Region.left r)
    < Z.min (Region.left monitor + Region.width monitor) (Region.left r + Region.width r) /\
  Z.max (Region.top monitor) (Region.top r)
    < Z.min (Region.top monitor + Region.height monitor) (Region.top r + Region.height r).

(** Whether one of the ranges, with the bounds as they are configured,
    holds the pixel. *)
Definition covered (ranges : list HSVRange.t) (p : px3) : bool :=
  existsb (fun rg => ColorDetector.within (HSVRange.lower rg) (HSVRange.upper rg) p) ranges.

(** The bounds of the range fit 32 bits. *)
Definition plain (rg : HSVRange.t) : Prop :=
  int32_triple (HSVRange.lower rg) /\ int32_triple (HSVRange.upper rg).

(** The two bounds of a range as [cv2.inRange] reads them, if it does. *)
Definition read_range {cv : OpenCV} (rg : HSVRange.t) : option (px3 * px3) :=
  boundaries (HSVRange.lower rg) (HSVRange.upper rg).

(** [cv2.inRange] reads every range of the list. *)
Definition accepted {cv : OpenCV} (ranges : list HSVRange.t) : bool :=
  forallb (fun rg => bool_decide (is_Some (read_range rg))) ranges.

(** Whether the range, as it is read, holds the pixel; whether one of the
    ranges does; and how many pixels of an image are held by one of the
    ranges. *)
Definition holds {cv : OpenCV} (rg : HSVRange.t) (p : px3) : bool :=
  match read_range rg with
  | Some (l, u) => ColorDetector.within l u p
  | None => false
  end.

Definition masked {cv : OpenCV} (ranges : list HSVRange.t) (p : px3) : bool :=
  existsb (fun rg => holds rg p) ranges.

Definition hits {cv : OpenCV} (ranges : list HSVRange.t) (hsv : array px3) : nat :=
  length (List.filter (masked ranges) (concat hsv)).

(** The value a pixel gets in the mask, from the value it had before. *)
Definition pixel_mask {cv : OpenCV} (ranges : list HSVRange.t) (p : px3) (before : Z) : Z :=
  fold_left (fun acc rg => Z.lor acc (if holds rg p then 255 else 0)) ranges before.

(** [evaluated w config st trades statuses st']: the trades were evaluated
    one after the other, each from the state its predecessors left, and
    [statuses] holds, in the same order, what [evaluate_trade] returned for
    a trade, or the neutral status of that trade where it raised. *)
Inductive evaluated {cv : OpenCV} (w : World) (config : AppConfig.t)
  : Detection.state -> list TradeConfig.t -> list TradeStatus.t -> Detection.state -> Prop :=
| evaluated_nil st :
    evaluated w config st [] [] st
| evaluated_ok st trade status st1 rest statuses st2 :
    DetectionManager.evaluate_trade w config trade st = (Ok status, st1) ->
    evaluated w config st1 rest statuses st2 ->
    evaluated w config st (trade :: rest) (status :: statuses) st2
| evaluated_raise st trade e st1 rest statuses st2 :
    DetectionManager.evaluate_trade w config trade st = (Raise e, st1) ->
    evaluated w config st1 rest statuses st2 ->
    evaluated w config st (trade :: rest)
      (DetectionManager.neutral (TradeConfig.name trade) :: statuses) st2.

(** The policy of the trade trigger on the optional flag: an unset
    [start_active] counts as active. *)
Definition assume_active (start_active : option bool) : bool := default true start_active.

Definition trade_triggers (status : TradeStatus.t) : bool :=
  TradeStatus.has_red_gem status && assume_active (TradeStatus.start_active status).

Definition trade_clicks (pair : TradeConfig.t * TradeStatus.t) : list Point.t :=
  if trade_triggers pair.2 then [TradeConfig.start_button pair.1] else [].

(** The state with more clicks injected, nothing else changed. *)
Definition with_clicks (ps : list Point.t) (s : Engine.state) : Engine.state :=
  Engine.mk (Engine._detection s) (Engine._last_statuses s) (Engine._last_collect_ts s)
            (Engine._last_refresh_ts s) (Engine.clock_reads s) (Engine.injected s ++ ps).

(** The backend that [click] chooses was importable. *)
Definition can_click (w : World) (config : AppConfig.t) : bool :=
  (ClickConfig.use_win32 (AppConfig.clicks config) && win32api w) || pyautogui w.

(** A length [time.sleep] accepts: not negative, and within a [_PyTime_t]
    once in nanoseconds. *)
Definition sleep_accepts (secs : Q) : Prop :=
  (0 <= secs)%Q /\ (secs * 1000000000 <= inject_Z PyTime_MAX)%Q.

(** What [click] without a pause makes of the backends and of the press
    duration, before it injects a click. *)
Definition click_check (w : World) (config : ClickConfig.t) : result unit :=
  if ClickExecutor._use_win32 w config then sleep_check (ClickExecutor.press config)
  else if pyautogui w then Ok tt else Raise RuntimeError.

(** Clicks succeed: the backend that [click] chooses was importable, and
    [time.sleep] accepts the settle delay and, for a win32 click, the press
    duration. *)
Definition clicks_ok (w : World) (config : AppConfig.t) : Prop :=
  can_click w config = true /\
  sleep_accepts (TimingConfig.post_click_delay (AppConfig.timing config)) /\
  (ClickExecutor._use_win32 w (AppConfig.clicks config) = true ->
   sleep_accepts (ClickExecutor.press (AppConfig.clicks config))).

(** Clicks succeed, and [time.sleep] accepts the pause at the end of a
    cycle, whatever time the cycle took. *)
Definition environment_ok (w : World) (config : AppConfig.t) : Prop :=
  clicks_ok w config /\
  forall n m, (n <= m)%nat ->
    sleep_accepts
      (py_max (py_max (AppConfig.cycle_delay config) (5 # 100)
               - (time_time w m - time_time w n)) (1 # 100)).

(** No status shows a red gem. *)
Definition no_red (statuses : list TradeStatus.t) : Prop :=
  forall s, s ∈ statuses -> TradeStatus.has_red_gem s = false.

(** Some status reports a disabled flag, and every reported flag is true. *)
Definition all_disabled (statuses : list TradeStatus.t) : Prop :=
  (exists s, s ∈ statuses /\ TradeStatus.start_disabled s <> None) /\
  (forall s, s ∈ statuses -> TradeStatus.start_disabled s <> Some false).

(** The stages of one cycle from [st]: [s1] once the statuses are
    published, [s2] after the trade trigger, which answered [clicked], [s3]
    after the collect trigger, [s4] after the refresh trigger; the cycle
    ends by reading the clock once more. *)
Definition cycle_runs {cv : OpenCV} (w : World) (config : AppConfig.t)
    (st : Engine.state) (statuses : list TradeStatus.t) (clicked : bool)
    (s1 s2 s3 s4 : Engine.state) : Prop :=
  (exists d,
      DetectionManager.evaluate_all w config (Engine._detection st) = (Ok statuses, d) /\
      s1 = Engine.set_last_statuses statuses (Engine.set_detection d (Engine.read_clock st))) /\
  AutomationEngine._handle_trades w config statuses s1 = (Ok clicked, s2) /\
  AutomationEngine._handle_collect w config s2 = (Ok tt, s3) /\
  AutomationEngine._handle_refresh w config statuses clicked s3 = (Ok tt, s4) /\
  AutomationEngine.cycle w config st = (Ok tt, Engine.read_clock s4).

(** ** Notions used in the further properties *)

(** [keeps R c]: whatever the outcome of [c], the state it leaves is
    related by [R] to the state it found. *)
Definition keeps {S A} (R : S -> S -> Prop) (c : M S A) : Prop :=
  forall s, R s (c s).2.

(** Every entry of the cache belongs to a configured template and carries
    the threshold configured for it. *)
Definition cache_consistent (templates : gmap string TemplateConfig.t)
    (cache : gmap string (array Z * Q)) : Prop :=
  forall name image threshold,
    cache !! name = Some (image, threshold) ->
    exists config,
      templates !! name = Some config /\ threshold = TemplateConfig.threshold config.

(** From [s] to [s'] the cache has kept its entries and its consistency,
    no screenshot was taken and no frame recorded. *)
Definition matcher_step (templates : gmap string TemplateConfig.t)
    (s s' : Detection.state) : Prop :=
  Detection._cache s ⊆ Detection._cache s' /\
  (cache_consistent templates (Detection._cache s) ->
   cache_consistent templates (Detection._cache s')) /\
  Detection.captures s' = Detection.captures s /\
  Detection._last_frames s' = Detection._last_frames s.

(** The state in which [evaluate_trade] analyses the frame it captured. *)
Definition with_frame (trade : TradeConfig.t) (frame : array px3)
    (s : Detection.state) : Detection.state :=
  Detection.set_last_frames (fun d => <[TradeConfig.name trade := frame]> d)
    (Detection.tick s).

(** Whether [evaluate_trade] matches the start template, and the grayed one. *)
Definition uses_start (config : AppConfig.t) (trade : TradeConfig.t) : bool :=
  truthy (TradeConfig.start_template trade)
  && TemplateMatcher.is_configured (AppConfig.templates config).

Definition uses_gray (config : AppConfig.t) (trade : TradeConfig.t) : bool :=
  truthy (TradeConfig.start_gray_template trade)
  && TemplateMatcher.is_configured (AppConfig.templates config).

(** The points the engine is configured to click. *)
Definition is_button (config : AppConfig.t) (p : Point.t) : Prop :=
  p ∈ map TradeConfig.start_button (AppConfig.trades config) \/
  p = AppConfig.collect_button config \/
  p = AppConfig.refresh_button config.

(** From [s] to [s'] at most [n] clicks were injected, after those of [s]
    and all at configured points. *)
Definition clicks_step (config : AppConfig.t) (n : nat) (s s' : Engine.state) : Prop :=
  exists l,
    Engine.injected s' = Engine.injected s ++ l /\
    Forall (is_button config) l /\
    (length l <= n)%nat.

(** From [s] to [s'] the timer has kept its value, or it holds a reading of
    the clock taken in between. *)
Definition timer_step (w : World) (timer : Engine.state -> Q)
    (s s' : Engine.state) : Prop :=
  timer s' = timer s \/
  exists n,
    (Engine.clock_reads s <= n < Engine.clock_reads s')%nat /\ timer s' = time_time w n.

(** From [s] to [s'] the detection manager and the published statuses are
    the same. *)
Definition published_step (s s' : Engine.state) : Prop :=
  Engine._detection s' = Engine._detection s /\
  Engine._last_statuses s' = Engine._last_statuses s.

(** What any stretch of the run loop keeps, from [s] to [s']. *)
Definition run_step (w : World) (config : AppConfig.t) (s s' : Engine.state) : Prop :=
  Detection._cache (Engine._detection s) ⊆ Detection._cache (Engine._detection s') /\
  (cache_consistent (AppConfig.templates config) (Detection._cache (Engine._detection s)) ->
   cache_consistent (AppConfig.templates config) (Detection._cache (Engine._detection s'))) /\
  (exists l, Engine.injected s' = Engine.injected s ++ l /\ Forall (is_button config) l) /\
  (Engine.clock_reads s <= Engine.clock_reads s')%nat /\
  timer_step w Engine._last_collect_ts s s' /\
  timer_step w Engine._last_refresh_ts s s'.

(** The clock never goes back. *)
Definition clock_monotone (w : World) : Prop :=
  forall n m, (n <= m)%nat -> (time_time w n <= time_time w m)%Q.

(** Neither timer is ahead of the next reading of the clock. *)
Definition timers_ok (w : World) (s : Engine.state) : Prop :=
  (Engine._last_collect_ts s <= time_time w (Engine.clock_reads s))%Q /\
  (Engine._last_refresh_ts s <= time_time w (Engine.clock_reads s))%Q.

(** The pause event of an [AutomationEngine] and the methods that set,
    clear and read it; [true] is the event set, that is, not paused. *)
Module PauseEvent.
Definition init : bool := true.

Definition pause (_pause_event : bool) : bool := false.

Definition resume (_pause_event : bool) : bool := true.

Definition toggle_pause (_pause_event : bool) : bool * bool :=
  if _pause_event then (true, pause _pause_event) else (false, resume _pause_event).

Definition is_paused (_pause_event : bool) : bool := negb _pause_event.

(** What the loop of [_run_loop] finds at the top of a turn. *)
Definition turn_found (_stop_event _pause_event : bool) : turn :=
  if _stop_event then Stop else if negb _pause_event then Paused else Running.
End PauseEvent.

(** [Region.from_mapping], [Region.to_monitor] and [Point.from_mapping] of
    config_loader.py, on a [Dict[str, int]] as annotated: the dict is a map
    from keys to integers, on which [int(..)] changes nothing. *)
Module Mapping.
(** [mapping[key]] *)
Definition getitem (mapping : gmap string Z) (key : string) : result Z :=
  match mapping !! key with
  | Some v => Ok v
  | None => Raise KeyError
  end.

Definition required_keys : gset string :=
  {[ "left"%string; "top"%string; "width"%string; "height"%string ]}.

Definition Region_from_mapping (mapping : gmap string Z) : result Region.t :=
  let missing := required_keys ∖ dom mapping in
  if negb (bool_decide (missing = ∅)) then Raise ValueError
  else
    result_bind (getitem mapping "left") (fun left =>
    result_bind (getitem mapping "top") (fun top =>
    result_bind (getitem mapping "width") (fun width =>
    result_bind (getitem mapping "height") (fun height =>
    Ok (Region.mk left top width height))))).

(** The dict that [Region.to_monitor] builds. *)
Definition Region_to_monitor (r : Region.t) : gmap string Z :=
  <["left"%string := Region.left r]>
    (<["top"%string := Region.top r]>
       (<["width"%string := Region.width r]>
          (<["height"%string := Region.height r]> ∅))).

Definition Point_from_mapping (mapping : gmap string Z) : result Point.t :=
  match
    result_bind (getitem mapping "x") (fun x =>
    result_bind (getitem mapping "y") (fun y =>
    Ok (Point.mk x y)))
  with
  | Raise KeyError => Raise ValueError
  | r => r
  end.
End Mapping.

(** [HSVRange.from_sequence] of config_loader.py, on lists of lists of
    lists of integers; its two ways to fail are kept apart. *)
Module Sequence.
Inductive error : Type :=
| PairLength      (* ValueError: a member is not a pair *)
| ShortTriplet.   (* IndexError: a bound has fewer than three components *)

(** [(int(t[0]), int(t[1]), int(t[2]))] *)
Definition triplet (t : list Z) : error + px3 :=
  match t with
  | a :: b :: c :: _ => inr (a, b, c)
  | _ => inl ShortTriplet
  end.

(** The loop of [from_sequence], with the ranges built so far. *)
Fixpoint from_sequence_loop (values : list (list (list Z))) (ranges : list HSVRange.t)
  : error + list HSVRange.t :=
  match values with
  | [] => inr ranges
  | member :: rest =>
      match member with
      | [lower; upper] =>
          match triplet lower, triplet upper with
          | inr l, inr u => from_sequence_loop rest (ranges ++ [HSVRange.mk l u])
          | inl e, _ => inl e
          | _, inl e => inl e
          end
      | _ => inl PairLength
      end
  end.

Definition from_sequence (values : list (list (list Z))) : error + list HSVRange.t :=
  from_sequence_loop values [].
End Sequence.

(** How a list of ranges is written in a configuration file. *)
Definition range_pair (rg : HSVRange.t) : list (list Z) :=
  let '(l0, l1, l2) := HSVRange.lower rg in
  let '(u0, u1, u2) := HSVRange.upper rg in
  [[l0; l1; l2]; [u0; u1; u2]].

(** ** ScreenGrabber *)

Section BoundedRegion.
Variables monitor region : Region.t.

Let bounded := ScreenGrabber._bounded_region monitor region.

Lemma bounded_region_size :
  1 <= Region.width bounded /\ 1 <= Region.height bounded.
Proof. subst bounded. unfold ScreenGrabber._bounded_region. cbn. lia. Qed.

Lemma bounded_region_corner :
  Region.left monitor <= Region.left bounded /\ Region.top monitor <= Region.top bounded.
Proof. subst bounded. unfold ScreenGrabber._bounded_region. cbn. lia. Qed.

(** When the request meets the monitor, the capture lies within both. *)
Lemma bounded_region_inside :
  overlaps monitor region -> inside monitor bounded /\ inside region bounded.
Proof.
  subst bounded. unfold overlaps, inside, ScreenGrabber._bounded_region. cbn. lia.
Qed.

(** A request that starts on or after the right edge, or on or below the
    bottom edge, of the monitor keeps its own corner: the capture leaves
    the monitor. *)
Lemma bounded_region_outside :
  0 <= Region.width monitor -> 0 <= Region.height monitor ->
  Region.left monitor + Region.width monitor <= Region.left region \/
  Region.top monitor + Region.height monitor <= Region.top region ->
  ~ inside monitor bounded.
Proof.
  subst bounded. unfold inside, ScreenGrabber._bounded_region. cbn. lia.
Qed.
End BoundedRegion.

(** C4, at the failing input.  The monitor is the 100x100 rectangle at the
    origin and the request the 10x10 rectangle at (200, 0), wholly to its
    right.  The clamping step answers the rectangle at (200, 0) of width 1
    and height 10: its size is at least 1x1, but it is not within the
    monitor, and it is not 1x1. *)
Theorem bounded_region_leaves_monitor :
  let monitor := Region.mk 0 0 100 100 in
  let bounded := ScreenGrabber._bounded_region monitor (Region.mk 200 0 10 10) in
  bounded = Region.mk 200 0 1 10 /\ ~ inside monitor bounded.
Proof.
  cbn. split; [reflexivity |]. unfold inside. cbn. lia.
Qed.

(** ** ColorDetector *)

Lemma zip_with_map_same {A B C D} (f : B -> C -> D) (g : A -> B) (h : A -> C) (l : list A) :
  zip_with f (map g l) (map h l) = map (fun a => f (g a) (h a)) l.
Proof. induction l as [| a l IH]; cbn; [reflexivity | now rewrite IH]. Qed.

Lemma size_map {A B} (g : A -> B) (a : array A) : size (map (map g) a) = size a.
Proof.
  unfold size. induction a as [| row a IH]; cbn; [reflexivity |].
  rewrite !length_app, length_map. now rewrite IH.
Qed.



Lemma concat_map_map {A B} (g : A -> B) (a : array A) :
  concat (map (map g) a) = map g (concat a).
Proof.
  induction a as [| row a IH]; cbn; [reflexivity |].
  now rewrite IH, map_app.
Qed.

Section Mask.
Context {cv : OpenCV}.

Lemma inRange_read (hsv : array px3) (rg : HSVRange.t) :
  ColorDetector.inRange hsv (HSVRange.lower rg) (HSVRange.upper rg)
  = match read_range rg with
    | Some _ => Ok (map (map (fun p => if holds rg p then 255 else 0)) hsv)
    | None => Raise CvError
    end.
Proof.
  unfold ColorDetector.inRange, holds, read_range.
  destruct (boundaries (HSVRange.lower rg) (HSVRange.upper rg)) as [[l u] |]; reflexivity.
Qed.

Lemma red_mask_from (ranges : list HSVRange.t) (hsv : array px3) (g : px3 -> Z) :
  ColorDetector.red_mask_loop ranges hsv (map (map g) hsv)
  = if accepted ranges
    then Ok (map (map (fun p => pixel_mask ranges p (g p))) hsv)
    else Raise CvError.
Proof.
  revert g. induction ranges as [| rg ranges IH]; intros g; [reflexivity |].
  cbn [ColorDetector.red_mask_loop accepted forallb pixel_mask fold_left].
  rewrite inRange_read.
  destruct (read_range rg) as [lu |] eqn:E; cbn [result_bind].
  - rewrite bool_decide_true by eauto. cbn [andb].
    unfold ColorDetector.bitwise_or. rewrite zip_with_map_same.
    erewrite map_ext; [| intros row; apply zip_with_map_same].
    apply IH.
  - rewrite bool_decide_false by (intros [x Hx]; discriminate). reflexivity.
Qed.

Lemma red_mask_pixels (ranges : list HSVRange.t) (hsv : array px3) :
  ColorDetector.red_mask ranges hsv
  = if accepted ranges
    then Ok (map (map (fun p => pixel_mask ranges p 0)) hsv)
    else Raise CvError.
Proof. unfold ColorDetector.red_mask, ColorDetector.zeros_like. apply red_mask_from. Qed.

Lemma pixel_mask_value (ranges : list HSVRange.t) (p : px3) (before : Z) :
  before = 0 \/ before = 255 ->
  pixel_mask ranges p before
  = if negb (before =? 0) || masked ranges p then 255 else 0.
Proof.
  unfold pixel_mask, masked.
  revert before. induction ranges as [| rg ranges IH]; intros before Hb; cbn.
  - destruct Hb as [-> | ->]; reflexivity.
  - rewrite IH.
    + destruct Hb as [-> | ->]; destruct (holds rg p); cbn; reflexivity.
    + destruct Hb as [-> | ->]; destruct (holds rg p); cbn; auto.
Qed.

Lemma pixel_mask_masked (ranges : list HSVRange.t) (p : px3) :
  pixel_mask ranges p 0 = if masked ranges p then 255 else 0.
Proof. rewrite pixel_mask_value by auto. reflexivity. Qed.

(** The mask, when there is one: 255 at the pixels that one of the ranges
    holds, 0 at the others. *)
Lemma red_mask_masked (ranges : list HSVRange.t) (hsv : array px3) :
  ColorDetector.red_mask ranges hsv
  = if accepted ranges
    then Ok (map (map (fun p => if masked ranges p then 255 else 0)) hsv)
    else Raise CvError.
Proof.
  rewrite red_mask_pixels. destruct (accepted ranges); [| reflexivity].
  f_equal. apply map_ext. intros row. apply map_ext. intros p. apply pixel_mask_masked.
Qed.

Lemma count_nonzero_masked (ranges : list HSVRange.t) (hsv : array px3) :
  ColorDetector.count_nonzero (map (map (fun p => if masked ranges p then 255 else 0)) hsv)
  = hits ranges hsv.
Proof.
  unfold ColorDetector.count_nonzero, hits.
  rewrite concat_map_map.
  induction (concat hsv) as [| p l IH]; cbn; [reflexivity |].
  destruct (masked ranges p); cbn; now rewrite IH.
Qed.

Lemma hits_le_size (ranges : list HSVRange.t) (hsv : array px3) :
  (hits ranges hsv <= size hsv)%nat.
Proof. unfold hits, size. apply List.filter_length_le. Qed.

(** What [red_ratio] answers: an exception on an empty frame and when a
    range is refused, the quotient of two counts otherwise. *)
Lemma red_ratio_eq (ranges : list HSVRange.t) (frame : array px3) :
  ColorDetector.red_ratio ranges frame
  = if (size frame =? 0)%nat then Raise CvError
    else if accepted ranges
         then Ok (inject_Z (Z.of_nat (hits ranges (map (map bgr2hsv) frame)))
                  / inject_Z (Z.of_nat (size frame)))%Q
         else Raise CvError.
Proof.
  unfold ColorDetector.red_ratio, cvtColor.
  destruct (size frame =? 0)%nat eqn:E; cbn [result_bind]; [reflexivity |].
  rewrite red_mask_masked. destruct (accepted ranges); cbn [result_bind]; [| reflexivity].
  unfold ColorDetector.float_div.
  rewrite !size_map, E, count_nonzero_masked. reflexivity.
Qed.

(** Ranges whose bounds fit 32 bits are read as they are configured. *)
Lemma plain_read (rg : HSVRange.t) :
  plain rg -> read_range rg = Some (HSVRange.lower rg, HSVRange.upper rg).
Proof.
  intros [Hl Hu]. now apply boundaries_int32.
Qed.

Lemma plain_accepted (ranges : list HSVRange.t) :
  Forall plain ranges -> accepted ranges = true.
Proof.
  induction 1 as [| rg ranges Hrg _ IH]; [reflexivity |].
  cbn [accepted forallb]. fold (accepted ranges).
  rewrite IH, (plain_read rg Hrg), bool_decide_true by eauto. reflexivity.
Qed.

Lemma plain_masked (ranges : list HSVRange.t) (p : px3) :
  Forall plain ranges -> masked ranges p = covered ranges p.
Proof.
  induction 1 as [| rg ranges Hrg _ IH]; [reflexivity |].
  cbn [masked covered existsb]. fold (masked ranges p) (covered ranges p).
  rewrite IH. unfold holds. now rewrite (plain_read rg Hrg).
Qed.

End Mask.

Lemma quotient_bounds (a b : nat) :
  (a <= b)%nat -> b <> 0%nat ->
  (0 <= inject_Z (Z.of_nat a) / inject_Z (Z.of_nat b) <= 1)%Q.
Proof.
  intros Hab Hb.
  assert (Hpos : (0 < inject_Z (Z.of_nat b))%Q).
  { change 0%Q with (inject_Z 0). rewrite <- Zlt_Qlt. lia. }
  split.
  - apply Qle_shift_div_l; [exact Hpos |].
    rewrite Qmult_0_l. change 0%Q with (inject_Z 0). rewrite <- Zle_Qle. lia.
  - apply Qle_shift_div_r; [exact Hpos |].
    rewrite Qmult_1_l. rewrite <- Zle_Qle. lia.
Qed.

Lemma quotient_mono (a a' b : nat) :
  (a <= a')%nat -> b <> 0%nat ->
  (inject_Z (Z.of_nat a) / inject_Z (Z.of_nat b)
   <= inject_Z (Z.of_nat a') / inject_Z (Z.of_nat b))%Q.
Proof.
  intros Haa Hb. unfold Qdiv.
  apply Qmult_le_compat_r.
  - rewrite <- Zle_Qle. lia.
  - apply Qinv_le_0_compat. change 0%Q with (inject_Z 0). rewrite <- Zle_Qle. lia.
Qed.

Lemma filter_length_mono {A} (f g : A -> bool) (l : list A) :
  (forall a, f a = true -> g a = true) ->
  (length (List.filter f l) <= length (List.filter g l))%nat.
Proof.
  intros Hfg. induction l as [| a l IH]; cbn; [lia |].
  destruct (f a) eqn:Ef.
  - rewrite (Hfg a Ef). cbn. lia.
  - destruct (g a); cbn; lia.
Qed.

Section Union.
Context {cv : OpenCV}.

Lemma masked_app (A B : list HSVRange.t) (p : px3) :
  masked (A ++ B) p = masked A p || masked B p.
Proof. unfold masked. apply existsb_app. Qed.

Lemma hits_app_l (A B : list HSVRange.t) (hsv : array px3) :
  (hits A hsv <= hits (A ++ B) hsv)%nat.
Proof.
  apply filter_length_mono. intros p Hp. rewrite masked_app, Hp. reflexivity.
Qed.




End Union.

(** C3, as the program has it.  On a frame with no pixel [red_ratio]
    raises.  On a frame with at least one pixel it answers a number between
    0 and 1 when [cv2.inRange] reads every configured range, and raises
    when it refuses one.  Ranges whose bounds fit 32 bits are all read. *)
Theorem red_ratio_range {cv : OpenCV} (ranges : list HSVRange.t) (frame : array px3) :
  (if (size frame =? 0)%nat
   then exists e, ColorDetector.red_ratio ranges frame = Raise e
   else if accepted ranges
        then exists q, ColorDetector.red_ratio ranges frame = Ok q /\ (0 <= q <= 1)%Q
        else exists e, ColorDetector.red_ratio ranges frame = Raise e) /\
  (Forall plain ranges -> accepted ranges = true).
Proof.
  split; [| apply plain_accepted].
  rewrite red_ratio_eq.
  destruct (size frame =? 0)%nat eqn:E.
  - exists CvError. reflexivity.
  - destruct (accepted ranges); [| exists CvError; reflexivity].
    eexists. split; [reflexivity |].
    apply Nat.eqb_neq in E.
    apply quotient_bounds; [| exact E].
    rewrite <- (size_map bgr2hsv frame). apply hits_le_size.
Qed.

(** C3, as written, fails on the empty image: the answer is an exception,
    not 0.0, and the quotient of the two counts alone is a division by
    zero.  On a frame of one pixel it raises as well when a bound is one
    that [cv2.inRange] refuses. *)
Lemma red_ratio_empty_image :
  ColorDetector.red_ratio (cv := Sample.cv) Sample.red_ranges [] = Raise CvError /\
  ColorDetector.red_ratio (cv := Sample.cv) Sample.red_ranges [] <> Ok 0%Q /\
  ColorDetector.red_mask (cv := Sample.cv) Sample.red_ranges [] = Ok [] /\
  ColorDetector.float_div (ColorDetector.count_nonzero []) (size (A := Z) [])
  = Raise ZeroDivisionError /\
  ColorDetector.red_ratio (cv := Sample.cv)
    [HSVRange.mk (0, 120, 70) (18446744073709551616, 255, 255)] [[Sample.red]]
  = Raise CvError.
Proof. repeat split; [discriminate]. Qed.


(** The bound 2**31 is cut to -2**31 and holds no pixel; the bound 2**64 is
    refused, on every frame. *)
Example red_ratio_wide_bounds :
  ColorDetector.red_ratio (cv := Sample.cv)
    [HSVRange.mk (0, 0, 0) (2147483648, 255, 255)] [[Sample.red; Sample.grey]] = Ok (0 # 2) /\
  ColorDetector.red_ratio (cv := Sample.cv)
    [HSVRange.mk (0, 0, 0) (180, 255, 255)] [[Sample.red; Sample.grey]] = Ok (2 # 2) /\
  forall frame,
    exists e,
      ColorDetector.red_ratio (cv := Sample.cv)
        [HSVRange.mk (0, 0, 0) (18446744073709551616, 255, 255)] frame = Raise e.
Proof.
  split; [reflexivity |]. split; [reflexivity |].
  intros frame. rewrite red_ratio_eq. exists CvError.
  destruct (size frame =? 0)%nat; reflexivity.
Qed.

(** ** TemplateMatcher *)




Section Matcher.
Context {cv : OpenCV} (w : World) (templates : gmap string TemplateConfig.t).

(** A resident template is answered from the cache, whatever the files. *)
Lemma load_template_cached (name : string) (config : TemplateConfig.t)
    (entry : array Z * Q) (st : Detection.state) :
  templates !! name = Some config ->
  Detection._cache st !! name = Some entry ->
  TemplateMatcher._load_template w templates name st = (Ok entry, st).
Proof.
  intros Ht Hc. unfold TemplateMatcher._load_template. rewrite Ht. run.
  rewrite Hc. reflexivity.
Qed.

(** Loading never removes or replaces an entry of the cache. *)
Lemma load_template_keeps (name other : string) (entry : array Z * Q)
    (st : Detection.state) :
  Detection._cache st !! other = Some entry ->
  Detection._cache (TemplateMatcher._load_template w templates name st).2 !! other
  = Some entry.
Proof.
  intros Hc. unfold TemplateMatcher._load_template.
  destruct (templates !! name) as [config |]; [| exact Hc]. run.
  destruct (Detection._cache st !! name) as [e |] eqn:En; [exact Hc |].
  destruct (files w _); cbn; try exact Hc.
  rewrite lookup_insert_ne; [exact Hc | congruence].
Qed.
End Matcher.

(** C6.  For a configured template that is not yet in the cache:
    - if its file is missing or cannot be decoded, [_load_template] raises,
      [match_] raises the same exception, and the state of the matcher, its
      cache included, is what it was: nothing is recorded, and a later call
      that finds a readable file loads it;
    - if its file is readable, the decoded picture and the threshold are
      returned and stored under the name, and from then on every call for
      that name, whatever the files have become, returns that entry and
      leaves the state alone. *)
Theorem load_template_cache {cv : OpenCV} (w : World)
    (templates : gmap string TemplateConfig.t) (name : string)
    (config : TemplateConfig.t) (st : Detection.state) :
  templates !! name = Some config ->
  Detection._cache st !! name = None ->
  let threshold := TemplateConfig.threshold config in
  match files w (TemplateConfig.path config) with
  | Picture image =>
      exists st',
        TemplateMatcher._load_template w templates name st = (Ok (image, threshold), st') /\
        Detection._cache st' = <[name := (image, threshold)]> (Detection._cache st) /\
        forall w2 st2,
          Detection._cache st2 !! name = Some (image, threshold) ->
          TemplateMatcher._load_template w2 templates name st2 = (Ok (image, threshold), st2)
  | Absent | Undecodable =>
      exists e,
        TemplateMatcher._load_template w templates name st = (Raise e, st) /\
        (forall frame, TemplateMatcher.match_ w templates frame name st = (Raise e, st)) /\
        forall w2 image,
          files w2 (TemplateConfig.path config) = Picture image ->
          (TemplateMatcher._load_template w2 templates name st).1 = Ok (image, threshold)
  end.
Proof.
  intros Ht Hc threshold.
  assert (Hretry : forall w2 image,
             files w2 (TemplateConfig.path config) = Picture image ->
             (TemplateMatcher._load_template w2 templates name st).1 = Ok (image, threshold)).
  { intros w2 image Hf. unfold TemplateMatcher._load_template. rewrite Ht. run.
    rewrite Hc, Hf. reflexivity. }
  assert (Hfail : forall e,
             TemplateMatcher._load_template w templates name st = (Raise e, st) ->
             forall frame, TemplateMatcher.match_ w templates frame name st = (Raise e, st)).
  { intros e He frame. unfold TemplateMatcher.match_, bind. rewrite He. reflexivity. }
  destruct (files w (TemplateConfig.path config)) as [| | image] eqn:Hf.
  - exists FileNotFoundError.
    assert (He : TemplateMatcher._load_template w templates name st
                 = (Raise FileNotFoundError, st)).
    { unfold TemplateMatcher._load_template. rewrite Ht. run. rewrite Hc, Hf. reflexivity. }
    auto.
  - exists RuntimeError.
    assert (He : TemplateMatcher._load_template w templates name st
                 = (Raise RuntimeError, st)).
    { unfold TemplateMatcher._load_template. rewrite Ht. run. rewrite Hc, Hf. reflexivity. }
    auto.
  - eexists. split; [| split].
    + unfold TemplateMatcher._load_template. rewrite Ht. run. rewrite Hc, Hf. reflexivity.
    + reflexivity.
    + intros w2 st2 Hc2. now apply load_template_cached with config.
Qed.

(** The theorem at a template whose file is missing. *)
Lemma load_template_cache_witness :
  exists e,
    TemplateMatcher._load_template Sample.world_no_file
      (AppConfig.templates (Sample.config [] 300 60)) "start" Detection.init
    = (Raise e, Detection.init).
Proof.
  pose proof (load_template_cache (cv := Sample.cv) Sample.world_no_file
                (AppConfig.templates (Sample.config [] 300 60)) "start"
                (TemplateConfig.mk "start" "start.png" (8 # 10)) Detection.init
                eq_refl eq_refl) as H.
  cbn in H. destruct H as (e & He & _). exists e. exact He.
Defined.




(** ** DetectionManager *)

Section Evaluate.
Context {cv : OpenCV} (w : World) (config : AppConfig.t).

(** A status that [evaluate_trade] returns carries the name of its trade. *)
Lemma evaluate_trade_name (trade : TradeConfig.t) (st st' : Detection.state)
    (status : TradeStatus.t) :
  DetectionManager.evaluate_trade w config trade st = (Ok status, st') ->
  TradeStatus.name status = TradeConfig.name trade.
Proof.
  unfold DetectionManager.evaluate_trade, bind.
  repeat (match goal with
          | |- context [match ?c with _ => _ end] => destruct c eqn:?
          end; try discriminate).
  all: intros [= <- _]; reflexivity.
Qed.

Lemma evaluated_length st trades statuses st' :
  evaluated w config st trades statuses st' -> length statuses = length trades.
Proof. induction 1; cbn; congruence. Qed.

Lemma evaluated_names st trades statuses st' :
  evaluated w config st trades statuses st' ->
  map TradeStatus.name statuses = map TradeConfig.name trades.
Proof.
  induction 1 as [| st trade status st1 rest statuses st2 Hev _ IH | ]; cbn.
  - reflexivity.
  - rewrite IH. f_equal. now apply evaluate_trade_name in Hev.
  - congruence.
Qed.

Lemma evaluate_loop_total (trades : list TradeConfig.t) :
  forall (done : list TradeStatus.t) (st : Detection.state),
  exists statuses st',
    DetectionManager.evaluate_loop w config trades done st = (Ok (done ++ statuses), st') /\
    evaluated w config st trades statuses st'.
Proof.
  induction trades as [| trade rest IH]; intros done st.
  - exists [], st. cbn. unfold ret. rewrite app_nil_r. split; [reflexivity | constructor].
  - cbn [DetectionManager.evaluate_loop]. unfold bind at 1, try_except.
    destruct (DetectionManager.evaluate_trade w config trade st) as [[status | e] st1] eqn:E.
    + destruct (IH (done ++ [status]) st1) as (l & st2 & Hrun & Hev).
      exists (status :: l), st2. rewrite Hrun, <- app_assoc. split; [reflexivity |].
      now apply evaluated_ok with st1.
    + unfold ret.
      destruct (IH (done ++ [DetectionManager.neutral (TradeConfig.name trade)]) st1)
        as (l & st2 & Hrun & Hev).
      exists (DetectionManager.neutral (TradeConfig.name trade) :: l), st2.
      rewrite Hrun, <- app_assoc. split; [reflexivity |].
      now apply evaluated_raise with e st1.
Qed.

Lemma evaluate_all_total (st : Detection.state) :
  exists statuses st',
    DetectionManager.evaluate_all w config st = (Ok statuses, st') /\
    evaluated w config st (AppConfig.trades config) statuses st'.
Proof. apply (evaluate_loop_total (AppConfig.trades config) []). Qed.
End Evaluate.

(** C7.  [evaluate_all] always returns: its answer has one status for each
    configured trade, in the order of the configuration and under the
    trade's name; every trade is evaluated, from the state its predecessors
    left; and where the evaluation of a trade raised, whatever the
    exception, the status is the neutral one (ratio 0.0, no red gem, the two
    flags and the score unset). *)
Theorem evaluate_all_never_raises {cv : OpenCV} (w : World) (config : AppConfig.t)
    (st : Detection.state) :
  exists statuses st',
    DetectionManager.evaluate_all w config st = (Ok statuses, st') /\
    evaluated w config st (AppConfig.trades config) statuses st' /\
    length statuses = length (AppConfig.trades config) /\
    map TradeStatus.name statuses = map TradeConfig.name (AppConfig.trades config) /\
    forall name,
      DetectionManager.neutral name = TradeStatus.mk name 0%Q false None None None.
Proof.
  destruct (evaluate_all_total w config st) as (statuses & st' & Hrun & Hev).
  exists statuses, st'. split; [exact Hrun |]. split; [exact Hev |].
  split; [now apply evaluated_length in Hev |].
  split; [now apply evaluated_names in Hev | reflexivity].
Qed.

(** A template file that is missing: the match raises, the status of the
    trade is neutral although its frame was captured and kept. *)
Example evaluate_all_missing_template :
  let r := DetectionManager.evaluate_all (cv := Sample.cv) Sample.world_no_file
             (Sample.config [Sample.trade_a] 300 60) Detection.init in
  r.1 = Ok [ TradeStatus.mk "a" 0%Q false None None None ] /\
  Detection._last_frames r.2 !! "a"%string = Some [[Sample.red]] /\
  Detection._cache r.2 = ∅.
Proof. vm_compute. repeat split. Qed.

(** A screen that cannot be captured for the first trade: its status is
    neutral and the second trade is evaluated all the same. *)
Example evaluate_all_broken_once :
  (DetectionManager.evaluate_all (cv := Sample.cv) Sample.world_broken_once
     (Sample.config [Sample.trade_a; Sample.trade_b] 300 60) Detection.init).1
  = Ok [ TradeStatus.mk "a" 0%Q false None None None;
         TradeStatus.mk "b" (4 # 4) true None None None ].
Proof. vm_compute. reflexivity. Qed.

(** ** ClickExecutor and the handlers of AutomationEngine *)

Lemma Qle_bool_false (a b : Q) : Qle_bool a b = false <-> (b < a)%Q.
Proof.
  split.
  - intros H. apply Qnot_le_lt. intros Hle. apply Qle_bool_iff in Hle. congruence.
  - intros H. destruct (Qle_bool a b) eqn:E; [| reflexivity].
    apply Qle_bool_iff in E. exfalso. now apply (Qlt_not_le b a).
Qed.

Lemma py_max_floor (a b : Q) : (0 <= b)%Q -> (0 <= py_max a b)%Q.
Proof.
  intros Hb. unfold py_max. destruct (Qle_bool b a) eqn:E; [| exact Hb].
  apply Qle_bool_iff in E. now apply Qle_trans with b.
Qed.

Lemma with_clicks_nil (s : Engine.state) : with_clicks [] s = s.
Proof. destruct s. unfold with_clicks. cbn. now rewrite app_nil_r. Qed.

Lemma with_clicks_inject (p : Point.t) (ps : list Point.t) (s : Engine.state) :
  with_clicks ps (Engine.inject p s) = with_clicks (p :: ps) s.
Proof. unfold with_clicks, Engine.inject. cbn. now rewrite <- app_assoc. Qed.

#[local] Arguments AutomationEngine._click : simpl never.
#[local] Arguments time_sleep : simpl never.

Lemma sleep_check_ok (secs : Q) : sleep_accepts secs -> sleep_check secs = Ok tt.
Proof.
  intros [H0 Hmax]. unfold sleep_check.
  assert (Hmin : (inject_Z PyTime_MIN <= secs * 1000000000)%Q).
  { apply Qle_trans with 0%Q; [now vm_compute |].
    apply Qmult_le_0_compat; [exact H0 | now vm_compute]. }
  apply Qle_bool_iff in Hmin, Hmax, H0. now rewrite Hmin, Hmax, H0.
Qed.

Lemma time_sleep_ok (secs : Q) (st : Engine.state) :
  sleep_accepts secs -> time_sleep secs st = (Ok tt, st).
Proof. intros H. unfold time_sleep, lift. now rewrite sleep_check_ok. Qed.

Lemma sleep_state (secs : Q) (st : Engine.state) : (time_sleep secs st).2 = st.
Proof. reflexivity. Qed.

(** A win32 click, for every world: the two sleeps have the same length,
    so the second is accepted when the first is, and nothing is injected
    when the first is refused. *)
Lemma win32_click_any (w : World) (config : ClickConfig.t) (point : Point.t)
    (st : Engine.state) :
  ClickExecutor._win32_click w config point st
  = if win32api w then
      match sleep_check (ClickExecutor.press config) with
      | Ok _ => (Ok tt, Engine.inject point st)
      | Raise e => (Raise e, st)
      end
    else (Raise RuntimeError, st).
Proof.
  unfold ClickExecutor._win32_click, ClickExecutor._win32_available.
  destruct (win32api w); cbn [negb]; [| reflexivity].
  unfold ClickExecutor.GetCursorPos, ClickExecutor.SetCursorPos,
    ClickExecutor.mouse_event_LEFTDOWN, ClickExecutor.mouse_event_LEFTUP,
    try_finally, bind, ret, modify, time_sleep, lift.
  destruct (sleep_check (ClickExecutor.press config)) as [[] | e];
    destruct (ClickConfig.move_cursor_back config); reflexivity.
Qed.

(** A click without a pause, for every world. *)
Lemma click_any (w : World) (config : ClickConfig.t) (point : Point.t)
    (st : Engine.state) :
  ClickExecutor.click w config point None st
  = match click_check w config with
    | Ok _ => (Ok tt, Engine.inject point st)
    | Raise e => (Raise e, st)
    end.
Proof.
  unfold ClickExecutor.click, click_check, bind.
  destruct (ClickExecutor._use_win32 w config) eqn:Ew.
  - rewrite win32_click_any.
    unfold ClickExecutor._use_win32, ClickExecutor._win32_available in Ew.
    apply andb_prop in Ew as [_ ->].
    destruct (sleep_check (ClickExecutor.press config)) as [[] | e]; reflexivity.
  - unfold ClickExecutor._pyautogui_click, ClickExecutor.pyautogui_click, modify.
    destruct (pyautogui w); reflexivity.
Qed.

(** A click that goes through had a backend. *)
Lemma click_check_ok (w : World) (config : AppConfig.t) :
  click_check w (AppConfig.clicks config) = Ok tt -> can_click w config = true.
Proof.
  unfold click_check, can_click, ClickExecutor._use_win32, ClickExecutor._win32_available.
  destruct (ClickConfig.use_win32 (AppConfig.clicks config) && win32api w); [reflexivity |].
  destruct (pyautogui w); [reflexivity | discriminate].
Qed.

Lemma click_check_no_backend (w : World) (config : AppConfig.t) :
  can_click w config = false -> click_check w (AppConfig.clicks config) = Raise RuntimeError.
Proof.
  unfold click_check, can_click, ClickExecutor._use_win32, ClickExecutor._win32_available.
  destruct (ClickConfig.use_win32 (AppConfig.clicks config) && win32api w); [discriminate |].
  destruct (pyautogui w); [discriminate | reflexivity].
Qed.

Lemma py_max_le (a b c : Q) : (a <= c)%Q -> (b <= c)%Q -> (py_max a b <= c)%Q.
Proof. intros Ha Hb. unfold py_max. now destruct (Qle_bool b a). Qed.

(** The sample world with the sample configuration is an environment in
    which clicks succeed. *)
Lemma sample_environment (trades : list TradeConfig.t) (collect refresh : Q) :
  environment_ok Sample.world (Sample.config trades collect refresh).
Proof.
  split; [split; [reflexivity | split; [split; now vm_compute | discriminate]] |].
  intros n m Hnm. split; [apply py_max_floor; discriminate |].
  assert (Hle : (py_max (py_max (1 # 2) (5 # 100)
                         - (time_time Sample.world m - time_time Sample.world n)) (1 # 100)
                 <= 1 # 2)%Q).
  { apply py_max_le; [| discriminate].
    change (py_max (1 # 2) (5 # 100)) with (1 # 2)%Q.
    unfold Qle, Qminus, Qplus, Qopp. cbn. lia. }
  apply Qle_trans with ((1 # 2) * 1000000000)%Q; [| now vm_compute].
  apply Qmult_le_compat_r; [exact Hle | discriminate].
Qed.

Section Handlers.
Context {cv : OpenCV} (w : World) (config : AppConfig.t).
Hypothesis Hclicks : clicks_ok w config.

Lemma click_ok (point : Point.t) (st : Engine.state) :
  AutomationEngine._click w config point st = (Ok tt, Engine.inject point st).
Proof.
  destruct Hclicks as (Hclick & _ & Hpress).
  unfold AutomationEngine._click. rewrite click_any.
  replace (click_check w (AppConfig.clicks config)) with (Ok tt); [reflexivity |].
  symmetry. unfold click_check.
  destruct (ClickExecutor._use_win32 w (AppConfig.clicks config)) eqn:Ew.
  - now apply sleep_check_ok, Hpress.
  - unfold can_click in Hclick.
    unfold ClickExecutor._use_win32, ClickExecutor._win32_available in Ew.
    rewrite Ew in Hclick. cbn in Hclick. now rewrite Hclick.
Qed.

Lemma settle_ok (st : Engine.state) :
  time_sleep (AutomationEngine.post_click_delay config) st = (Ok tt, st).
Proof. apply time_sleep_ok, Hclicks. Qed.

Lemma handle_trades_loop_run (pairs : list (TradeConfig.t * TradeStatus.t)) :
  forall (any_click : bool) (st : Engine.state),
    AutomationEngine._handle_trades_loop w config pairs any_click st
    = (Ok (any_click || existsb (fun pair => trade_triggers pair.2) pairs),
       with_clicks (flat_map trade_clicks pairs) st).
Proof.
  induction pairs as [| [trade status] rest IH]; intros any_click st.
  - cbn. unfold ret. now rewrite orb_false_r, with_clicks_nil.
  - assert (Ht : trade_triggers status
                 = TradeStatus.has_red_gem status
                   && default true (TradeStatus.start_active status)) by reflexivity.
    cbn [AutomationEngine._handle_trades_loop flat_map existsb].
    unfold trade_clicks at 1. cbn [fst snd]. rewrite Ht.
    unfold bind at 1.
    destruct (TradeStatus.has_red_gem status); cbn [andb].
    + destruct (TradeStatus.start_active status) as [[|] |]; cbn [default app].
      * unfold bind at 1. rewrite click_ok. unfold bind at 1. rewrite settle_ok.
        unfold ret at 1. rewrite IH, with_clicks_inject, orb_true_r. reflexivity.
      * unfold ret at 1. rewrite IH. reflexivity.
      * unfold bind at 1. rewrite click_ok. unfold bind at 1. rewrite settle_ok.
        unfold ret at 1. rewrite IH, with_clicks_inject, orb_true_r. reflexivity.
    + unfold ret at 1. rewrite IH. reflexivity.
Qed.

Lemma handle_trades_run (statuses : list TradeStatus.t) (st : Engine.state) :
  let pairs := zip (AppConfig.trades config) statuses in
  AutomationEngine._handle_trades w config statuses st
  = (Ok (existsb (fun pair => trade_triggers pair.2) pairs),
     with_clicks (flat_map trade_clicks pairs) st).
Proof. apply (handle_trades_loop_run _ false). Qed.

Lemma handle_collect_run (st : Engine.state) :
  let now := time_time w (Engine.clock_reads st) in
  let interval := TimingConfig.collect_interval (AppConfig.timing config) in
  AutomationEngine._handle_collect w config st
  = (Ok tt,
     if Qle_bool interval 0 then Engine.read_clock st
     else if Qle_bool interval (now - Engine._last_collect_ts st)
          then Engine.set_last_collect_ts now
                 (Engine.inject (AppConfig.collect_button config) (Engine.read_clock st))
          else Engine.read_clock st).
Proof.
  cbv zeta.
  unfold AutomationEngine._handle_collect, time_now, bind, gets, modify, ret.
  cbv beta iota. cbn [Engine._last_collect_ts Engine.read_clock].
  destruct (Qle_bool _ 0); [reflexivity |].
  destruct (Qle_bool _ _); [| reflexivity].
  rewrite click_ok. apply settle_ok.
Qed.

Lemma handle_refresh_run (statuses : list TradeStatus.t) (click_performed : bool)
    (st : Engine.state) :
  let now := time_time w (Engine.clock_reads st) in
  let interval := TimingConfig.refresh_interval (AppConfig.timing config) in
  let refresh_due :=
    negb (Qle_bool interval 0) && Qle_bool interval (now - Engine._last_refresh_ts st) in
  let no_red := negb (existsb TradeStatus.has_red_gem statuses) in
  let flags := omap TradeStatus.start_disabled statuses in
  let all_disabled := (0 <? length flags)%nat && forallb id flags in
  AutomationEngine._handle_refresh w config statuses click_performed st
  = (Ok tt,
     if (no_red || all_disabled || refresh_due) && negb click_performed
     then Engine.set_last_refresh_ts now
            (Engine.inject (AppConfig.refresh_button config) (Engine.read_clock st))
     else Engine.read_clock st).
Proof.
  cbv zeta.
  unfold AutomationEngine._handle_refresh, time_now, bind, gets, modify, ret.
  cbv beta iota. cbn [Engine._last_refresh_ts Engine.read_clock].
  match goal with |- context [if ?c then _ else _] => destruct c end; [| reflexivity].
  rewrite click_ok. apply settle_ok.
Qed.
End Handlers.

(** ** The conditions of the refresh trigger, as propositions *)

Lemma no_red_reflect (statuses : list TradeStatus.t) :
  negb (existsb TradeStatus.has_red_gem statuses) = true <-> no_red statuses.
Proof.
  unfold no_red. induction statuses as [| s l IH]; cbn.
  - split; [intros _ x Hx; inversion Hx | reflexivity].
  - rewrite negb_orb, andb_true_iff, IH, negb_true_iff. split.
    + intros [Hs Hl] x Hx. apply elem_of_cons in Hx as [-> | Hx]; auto.
    + intros H. split; [apply H; left | intros x Hx; apply H; now right].
Qed.

Lemma all_disabled_reflect (statuses : list TradeStatus.t) :
  let flags := omap TradeStatus.start_disabled statuses in
  (0 <? length flags)%nat && forallb id flags = true <-> all_disabled statuses.
Proof.
  cbv zeta. unfold all_disabled. rewrite andb_true_iff.
  assert (Hsome : (0 <? length (omap TradeStatus.start_disabled statuses))%nat = true
                  <-> exists s, s ∈ statuses /\ TradeStatus.start_disabled s <> None).
  { rewrite Nat.ltb_lt. split.
    - destruct (omap _ statuses) as [| b l] eqn:E; cbn; [lia |]. intros _.
      assert (Hb : b ∈ omap TradeStatus.start_disabled statuses) by (rewrite E; left).
      apply list_elem_of_omap in Hb as (s & Hs & Hf). exists s. split; [exact Hs | congruence].
    - intros (s & Hs & Hf). destruct (TradeStatus.start_disabled s) as [b |] eqn:E; [| congruence].
      assert (Hb : b ∈ omap TradeStatus.start_disabled statuses)
        by (apply list_elem_of_omap; eauto).
      destruct (omap _ statuses); [inversion Hb | cbn; lia]. }
  assert (Hall : forallb id (omap TradeStatus.start_disabled statuses) = true
                 <-> forall s, s ∈ statuses -> TradeStatus.start_disabled s <> Some false).
  { rewrite forallb_forall. split.
    - intros H s Hs Hf.
      assert (Hb : false ∈ omap TradeStatus.start_disabled statuses)
        by (apply list_elem_of_omap; eauto).
      apply list_elem_of_In, H in Hb. discriminate.
    - intros H b Hb. apply list_elem_of_In, list_elem_of_omap in Hb as (s & Hs & Hf).
      destruct b; [reflexivity |]. exfalso. now apply (H s Hs). }
  now rewrite Hsome, Hall.
Qed.

Lemma refresh_due_reflect (interval elapsed : Q) :
  negb (Qle_bool interval 0) && Qle_bool interval elapsed = true
  <-> (0 < interval /\ interval <= elapsed)%Q.
Proof.
  rewrite andb_true_iff, negb_true_iff, Qle_bool_false, Qle_bool_iff. reflexivity.
Qed.

Lemma bind_ok {S A B} (c : M S A) (k : A -> M S B) (s s' : S) (a : A) :
  c s = (Ok a, s') -> bind c k s = k a s'.
Proof. intros H. unfold bind. now rewrite H. Qed.

Lemma app_one_ne {A} (l : list A) (a : A) : l ++ [a] <> l.
Proof. intros H. apply (f_equal length) in H. rewrite length_app in H. cbn in H. lia. Qed.

(** ** The cycle *)

Section Cycle.
Context {cv : OpenCV} (w : World) (config : AppConfig.t).
Hypothesis Henv : environment_ok w config.

(** In an environment where clicks succeed, a cycle goes through its four
    stages and returns. *)
Lemma cycle_stages (st : Engine.state) :
  exists statuses clicked s1 s2 s3 s4,
    cycle_runs w config st statuses clicked s1 s2 s3 s4.
Proof.
  destruct (evaluate_all_total w config (Engine._detection st))
    as (statuses & d & Heval & _).
  set (s1 := Engine.set_last_statuses statuses (Engine.set_detection d (Engine.read_clock st))).
  pose proof (handle_trades_run w config (proj1 Henv) statuses s1) as Htr. cbv zeta in Htr.
  set (clicked := existsb _ _) in Htr.
  set (s2 := with_clicks _ s1) in Htr.
  pose proof (handle_collect_run w config (proj1 Henv) s2) as Hco. cbv zeta in Hco.
  set (s3 := if Qle_bool _ 0 then _ else _) in Hco.
  pose proof (handle_refresh_run w config (proj1 Henv) statuses clicked s3) as Hre. cbv zeta in Hre.
  set (s4 := if _ && negb clicked then _ else _) in Hre.
  exists statuses, clicked, s1, s2, s3, s4.
  split; [exists d; split; [exact Heval | reflexivity] |].
  split; [exact Htr |]. split; [exact Hco |]. split; [exact Hre |].
  unfold AutomationEngine.cycle. cbv zeta.
  erewrite bind_ok by reflexivity.
  erewrite bind_ok
    by (unfold zoom; cbn [Engine._detection Engine.read_clock]; rewrite Heval; reflexivity).
  erewrite bind_ok by reflexivity.
  erewrite bind_ok by exact Htr.
  erewrite bind_ok by exact Hco.
  erewrite bind_ok by exact Hre.
  erewrite bind_ok by reflexivity.
  apply time_sleep_ok.
  cbn [Engine.clock_reads Engine.read_clock].
  apply (proj2 Henv).
  assert (Hn : Engine.clock_reads s4 = S (S (Engine.clock_reads s1))).
  { subst s4 s3 s2.
    repeat match goal with
           | |- context [if ?c then _ else _] => destruct c
           end; reflexivity. }
  rewrite Hn. subst s1. cbn. lia.
Qed.

(** The three cases of the collect trigger, from any state. *)
Lemma handle_collect_cases (st st' : Engine.state) :
  AutomationEngine._handle_collect w config st = (Ok tt, st') ->
  let now := time_time w (Engine.clock_reads st) in
  let interval := TimingConfig.collect_interval (AppConfig.timing config) in
  let last := Engine._last_collect_ts st in
  ((interval <= 0)%Q ->
   Engine.injected st' = Engine.injected st /\ Engine._last_collect_ts st' = last) /\
  ((0 < interval)%Q -> (interval <= now - last)%Q ->
   Engine.injected st' = Engine.injected st ++ [AppConfig.collect_button config] /\
   Engine._last_collect_ts st' = now) /\
  ((0 < interval)%Q -> (now - last < interval)%Q ->
   Engine.injected st' = Engine.injected st /\ Engine._last_collect_ts st' = last).
Proof.
  rewrite (handle_collect_run w config (proj1 Henv)). cbv zeta. intros [= <-].
  destruct (Qle_bool _ 0) eqn:E0.
  - apply Qle_bool_iff in E0. split; [| split].
    + intros _. split; reflexivity.
    + intros Hpos. exfalso. now apply (Qlt_not_le _ _ Hpos).
    + intros Hpos. exfalso. now apply (Qlt_not_le _ _ Hpos).
  - apply Qle_bool_false in E0.
    destruct (Qle_bool _ (_ - _)) eqn:E1.
    + apply Qle_bool_iff in E1. split; [| split].
      * intros Hle. exfalso. now apply (Qlt_not_le _ _ E0).
      * intros _ _. split; reflexivity.
      * intros _ Hlt. exfalso. now apply (Qlt_not_le _ _ Hlt).
    + apply Qle_bool_false in E1. split; [| split].
      * intros Hle. exfalso. now apply (Qlt_not_le _ _ E0).
      * intros _ Hle. exfalso. now apply (Qlt_not_le _ _ E1).
      * intros _ _. split; reflexivity.
Qed.
End Cycle.

(** While the engine is paused nothing is evaluated and nothing is clicked. *)
Lemma run_loop_paused {cv : OpenCV} (w : World) (config : AppConfig.t) (n : nat)
    (st : Engine.state) :
  AutomationEngine._run_loop w config (repeat Paused n) st = (Ok tt, st).
Proof.
  induction n as [| n IH]; cbn [repeat AutomationEngine._run_loop]; [reflexivity |].
  erewrite bind_ok; [exact IH | reflexivity].
Qed.

(** ** The trade trigger *)

Lemma trade_clicks_spec (pair : TradeConfig.t * TradeStatus.t) :
  (trade_clicks pair = [TradeConfig.start_button pair.1] \/ trade_clicks pair = []) /\
  (trade_clicks pair = [TradeConfig.start_button pair.1]
   <-> TradeStatus.has_red_gem pair.2 = true /\ TradeStatus.start_active pair.2 <> Some false).
Proof.
  unfold trade_clicks, trade_triggers, assume_active.
  destruct (TradeStatus.has_red_gem pair.2);
    destruct (TradeStatus.start_active pair.2) as [[|] |]; cbn;
    (split; [auto |]); split; try (intros [? ?]); try intros ?;
    try discriminate; try congruence; auto; split; congruence.
Qed.

Lemma triggers_clicks (pairs : list (TradeConfig.t * TradeStatus.t)) :
  existsb (fun pair => trade_triggers pair.2) pairs = true
  <-> flat_map trade_clicks pairs <> [].
Proof.
  induction pairs as [| pair rest IH]; cbn.
  - split; [discriminate | congruence].
  - rewrite orb_true_iff, IH. unfold trade_clicks at 1 2.
    destruct (trade_triggers pair.2); cbn.
    + split; [discriminate | auto].
    + split; [intros [H | H]; [discriminate | exact H] | auto].
Qed.

(** C2, as the program has it.  When clicks succeed, [_handle_trades]
    returns, and the clicks it injects are, trade by trade
    in the order of the configuration, the clicks of each trade that has a
    status: one click at the trade's start button when the status has a red
    gem and its [start_active] is unset or true, none otherwise (so none
    when [start_active] is false).  The answer is [True] exactly when at
    least one click was injected.  Nothing else of the state changes. *)
Theorem handle_trades_clicks {cv : OpenCV} (w : World) (config : AppConfig.t)
    (statuses : list TradeStatus.t) (st : Engine.state) :
  clicks_ok w config ->
  exists (any_click : bool) (per_trade : list (list Point.t)),
    AutomationEngine._handle_trades w config statuses st
    = (Ok any_click, with_clicks (concat per_trade) st) /\
    Forall2
      (fun pair clicks =>
         (clicks = [TradeConfig.start_button pair.1] \/ clicks = []) /\
         (clicks = [TradeConfig.start_button pair.1]
          <-> TradeStatus.has_red_gem pair.2 = true /\
              (TradeStatus.start_active pair.2 = None \/
               TradeStatus.start_active pair.2 = Some true)))
      (zip (AppConfig.trades config) statuses) per_trade /\
    (any_click = true <-> concat per_trade <> []).
Proof.
  intros Hclicks.
  set (pairs := zip (AppConfig.trades config) statuses).
  exists (existsb (fun pair => trade_triggers pair.2) pairs), (map trade_clicks pairs).
  split; [| split].
  - rewrite (handle_trades_run w config Hclicks), <- flat_map_concat_map. reflexivity.
  - induction pairs as [| pair rest IH]; cbn; constructor; [| exact IH].
    destruct (trade_clicks_spec pair) as [Hor Hiff]. split; [exact Hor |].
    rewrite Hiff. destruct (TradeStatus.start_active pair.2) as [[|] |];
      intuition (discriminate || congruence || auto).
  - rewrite <- flat_map_concat_map. apply triggers_clicks.
Qed.

(** The theorem at two trades, the first with a red gem and an inactive
    start button, the second with a red gem and no template. *)
Lemma handle_trades_clicks_witness :
  exists any_click per_trade,
    AutomationEngine._handle_trades Sample.world
      (Sample.config [Sample.trade_a; Sample.trade_b] 300 60)
      [ TradeStatus.mk "a" 1 true (Some false) None (Some 0%Q);
        TradeStatus.mk "b" 1 true None None None ]
      AutomationEngine.init
    = (Ok any_click, with_clicks (concat per_trade) AutomationEngine.init) /\
    (any_click = true <-> concat per_trade <> []).
Proof.
  assert (Henv : clicks_ok Sample.world
                   (Sample.config [Sample.trade_a; Sample.trade_b] 300 60))
    by exact (proj1 (sample_environment _ _ _)).
  destruct (handle_trades_clicks (cv := Sample.cv) Sample.world
              (Sample.config [Sample.trade_a; Sample.trade_b] 300 60)
              [ TradeStatus.mk "a" 1 true (Some false) None (Some 0%Q);
                TradeStatus.mk "b" 1 true None None None ]
              AutomationEngine.init Henv)
    as (any_click & per_trade & Hrun & _ & Hany).
  exists any_click, per_trade. split; assumption.
Defined.

Example handle_trades_sample :
  AutomationEngine._handle_trades Sample.world
    (Sample.config [Sample.trade_a; Sample.trade_b] 300 60)
    [ TradeStatus.mk "a" 1 true (Some false) None (Some 0%Q);
      TradeStatus.mk "b" 1 true None None None ]
    AutomationEngine.init
  = (Ok true, with_clicks [Point.mk 21 22] AutomationEngine.init).
Proof. reflexivity. Qed.

(** C2, as written, fails without a click backend: the status of the trade
    has a red gem and its [start_active] is unset, but no click at its
    start button occurs, and the trigger raises instead of reporting. *)
Lemma handle_trades_without_backend :
  let config := Sample.config [Sample.trade_b] 300 60 in
  let status := TradeStatus.mk "b" 1 true None None None in
  let r := AutomationEngine._handle_trades Sample.world_no_backend config [status]
             AutomationEngine.init in
  TradeStatus.has_red_gem status = true /\
  TradeStatus.start_active status = None /\
  r.1 = Raise RuntimeError /\
  Engine.injected r.2 = [] /\
  TradeConfig.start_button Sample.trade_b ∉ Engine.injected r.2.
Proof.
  cbv zeta. repeat split. cbn. apply not_elem_of_nil.
Qed.

(** With a negative settle delay the first click is injected, [time.sleep]
    raises, and the later trades are not reached. *)
Example handle_trades_negative_delay :
  AutomationEngine._handle_trades Sample.world
    (Sample.config_negative_delay [Sample.trade_b; Sample.trade_b])
    [ TradeStatus.mk "b" 1 true None None None;
      TradeStatus.mk "b" 1 true None None None ] AutomationEngine.init
  = (Raise ValueError, with_clicks [Point.mk 21 22] AutomationEngine.init).
Proof. reflexivity. Qed.

(** ** The collect and refresh triggers in a cycle *)

(** C9, as the program has it.  In every cycle, in an environment where
    clicks succeed, the collect trigger runs after the trade trigger whatever
    that one answered, and from the state [s2] it finds, with [now] the clock it
    reads: an interval of zero or less gives no click; a positive interval
    that has elapsed since the last collect click gives exactly one click,
    at the collect button, and sets the last-collect timestamp to [now]; a
    positive interval that has not elapsed gives no click and leaves the
    timestamp. *)
Theorem collect_trigger {cv : OpenCV} (w : World) (config : AppConfig.t)
    (st : Engine.state) :
  environment_ok w config ->
  exists statuses clicked s1 s2 s3 s4,
    cycle_runs w config st statuses clicked s1 s2 s3 s4 /\
    let now := time_time w (Engine.clock_reads s2) in
    let interval := TimingConfig.collect_interval (AppConfig.timing config) in
    let last := Engine._last_collect_ts s2 in
    ((interval <= 0)%Q ->
     Engine.injected s3 = Engine.injected s2 /\ Engine._last_collect_ts s3 = last) /\
    ((0 < interval)%Q -> (interval <= now - last)%Q ->
     Engine.injected s3 = Engine.injected s2 ++ [AppConfig.collect_button config] /\
     Engine._last_collect_ts s3 = now) /\
    ((0 < interval)%Q -> (now - last < interval)%Q ->
     Engine.injected s3 = Engine.injected s2 /\ Engine._last_collect_ts s3 = last).
Proof.
  intros Henv.
  destruct (cycle_stages w config Henv st) as (statuses & clicked & s1 & s2 & s3 & s4 & Hrun).
  exists statuses, clicked, s1, s2, s3, s4. split; [exact Hrun |].
  destruct Hrun as (_ & _ & Hco & _).
  exact (handle_collect_cases w config Henv s2 s3 Hco).
Qed.

(** The theorem at the first cycle of the sample configuration, with a
    collect interval of 150. *)
Lemma collect_trigger_witness :
  exists statuses clicked s1 s2 s3 s4,
    cycle_runs (cv := Sample.cv) Sample.world (Sample.config [Sample.trade_b] 150 60)
      AutomationEngine.init statuses clicked s1 s2 s3 s4 /\
    Engine.injected s3 = Engine.injected s2 ++ [Point.mk 500 600] /\
    Engine._last_collect_ts s3 = time_time Sample.world (Engine.clock_reads s2).
Proof.
  assert (Henv : environment_ok Sample.world (Sample.config [Sample.trade_b] 150 60))
    by apply sample_environment.
  destruct (collect_trigger (cv := Sample.cv) Sample.world
              (Sample.config [Sample.trade_b] 150 60) AutomationEngine.init Henv)
    as (statuses & clicked & s1 & s2 & s3 & s4 & Hrun & _ & Hfire & _).
  exists statuses, clicked, s1, s2, s3, s4. split; [exact Hrun |].
  apply Hfire; [reflexivity |].
  destruct Hrun as ((d & _ & ->) & Htr & _).
  rewrite (handle_trades_run _ _ (proj1 Henv)) in Htr. injection Htr as _ <-.
  cbn. unfold Qle. cbn. lia.
Defined.

(** C9, as written, fails when clicks do not succeed.  Without a click
    backend and with no trade to click, the collect interval, 150, is
    positive and has elapsed, but the cycle injects no collect click and
    the last-collect timestamp stays 0.0.  With a settle delay that
    [time.sleep] refuses, the trade click raises and the collect trigger
    does not run in that cycle: the clock is read once, for the start of
    the cycle, and the timestamp stays 0.0 although the interval has
    elapsed. *)
Lemma collect_due_without_backend :
  let config := Sample.config [] 150 60 in
  let r := AutomationEngine.cycle (cv := Sample.cv) Sample.world_no_backend config
             AutomationEngine.init in
  let config' := Sample.config_negative_delay [Sample.trade_b] in
  let r' := AutomationEngine.cycle (cv := Sample.cv) Sample.world config'
              AutomationEngine.init in
  ((0 < TimingConfig.collect_interval (AppConfig.timing config))%Q /\
   (TimingConfig.collect_interval (AppConfig.timing config)
    <= time_time Sample.world_no_backend 1
       - Engine._last_collect_ts AutomationEngine.init)%Q /\
   r.1 = Raise RuntimeError /\
   Engine.clock_reads r.2 = 2%nat /\
   Engine.injected r.2 = [] /\
   Engine._last_collect_ts r.2 = 0%Q) /\
  ((0 < TimingConfig.collect_interval (AppConfig.timing config'))%Q /\
   (TimingConfig.collect_interval (AppConfig.timing config')
    <= time_time Sample.world 1 - Engine._last_collect_ts AutomationEngine.init)%Q /\
   r'.1 = Raise ValueError /\
   Engine.clock_reads r'.2 = 1%nat /\
   Engine.injected r'.2 = [TradeConfig.start_button Sample.trade_b] /\
   Engine._last_collect_ts r'.2 = 0%Q).
Proof.
  cbv zeta. split.
  - split; [reflexivity |]. split; [now vm_compute |].
    split; [vm_compute; reflexivity |]. split; [vm_compute; reflexivity |].
    split; vm_compute; reflexivity.
  - split; [reflexivity |]. split; [now vm_compute |].
    split; [vm_compute; reflexivity |]. split; [vm_compute; reflexivity |].
    split; vm_compute; reflexivity.
Qed.

Lemma refresh_condition_reflect (statuses : list TradeStatus.t) (clicked : bool)
    (interval elapsed : Q) :
  let flags := omap TradeStatus.start_disabled statuses in
  (negb (existsb TradeStatus.has_red_gem statuses)
   || (0 <? length flags)%nat && forallb id flags
   || negb (Qle_bool interval 0) && Qle_bool interval elapsed)
  && negb clicked = true
  <-> clicked = false /\
      (no_red statuses \/ all_disabled statuses \/
       (0 < interval /\ interval <= elapsed)%Q).
Proof.
  cbv zeta.
  rewrite andb_true_iff, !orb_true_iff.
  rewrite no_red_reflect, refresh_due_reflect.
  pose proof (all_disabled_reflect statuses) as Had. cbv zeta in Had. rewrite Had.
  rewrite negb_true_iff. tauto.
Qed.

(** C1, as the program has it.  In every cycle, in an environment where
    clicks succeed: the trade trigger answers [True]
    exactly when it injected a click; the refresh trigger injects one click
    at the refresh button or none; and it injects one exactly when the trade
    trigger answered [False] and (a) no status shows a red gem, or (b) some
    status reports a disabled flag and every reported flag is true, or (c)
    the refresh interval is positive and has elapsed since the last refresh
    click.  So a cycle with a trade click has no refresh click. *)
Theorem refresh_trigger {cv : OpenCV} (w : World) (config : AppConfig.t)
    (st : Engine.state) :
  environment_ok w config ->
  exists statuses clicked s1 s2 s3 s4,
    cycle_runs w config st statuses clicked s1 s2 s3 s4 /\
    (clicked = true <-> Engine.injected s2 <> Engine.injected s1) /\
    let now := time_time w (Engine.clock_reads s3) in
    let interval := TimingConfig.refresh_interval (AppConfig.timing config) in
    let last := Engine._last_refresh_ts s3 in
    let fired := Engine.injected s4 = Engine.injected s3 ++ [AppConfig.refresh_button config] in
    (fired \/ Engine.injected s4 = Engine.injected s3) /\
    (fired <->
     clicked = false /\
     (no_red statuses \/ all_disabled statuses \/
      (0 < interval /\ interval <= now - last)%Q)) /\
    (clicked = true -> Engine.injected s4 = Engine.injected s3).
Proof.
  intros Henv.
  destruct (cycle_stages w config Henv st) as (statuses & clicked & s1 & s2 & s3 & s4 & Hrun).
  exists statuses, clicked, s1, s2, s3, s4. split; [exact Hrun |].
  destruct Hrun as (_ & Htr & _ & Hre & _).
  rewrite (handle_trades_run w config (proj1 Henv)) in Htr. cbv zeta in Htr.
  injection Htr as Hclicked Hs2.
  rewrite (handle_refresh_run w config (proj1 Henv)) in Hre. cbv zeta in Hre.
  injection Hre as Hs4.
  split.
  { rewrite <- Hclicked, <- Hs2, triggers_clicks. unfold with_clicks. cbn.
    split.
    - intros Hne Heq. apply Hne.
      apply (app_inv_head (Engine.injected s1)). now rewrite app_nil_r.
    - intros Hne Heq. apply Hne. now rewrite Heq, app_nil_r. }
  cbv zeta.
  pose proof (refresh_condition_reflect statuses clicked
                (TimingConfig.refresh_interval (AppConfig.timing config))
                (time_time w (Engine.clock_reads s3) - Engine._last_refresh_ts s3)) as Hcond.
  cbv zeta in Hcond.
  destruct (_ && negb clicked) eqn:E; subst s4; cbn.
  - split; [now left |]. split.
    + split; [intros _; now apply Hcond | reflexivity].
    + intros ->. apply proj1 in Hcond. destruct (Hcond eq_refl) as [? _]. discriminate.
  - split; [now right |]. split.
    + split.
      * intros Hf. symmetry in Hf. now apply app_one_ne in Hf.
      * intros Hc. apply Hcond in Hc. discriminate.
    + reflexivity.
Qed.

(** The theorem at the first cycle of the sample configuration. *)
Lemma refresh_trigger_witness :
  exists statuses clicked s1 s2 s3 s4,
    cycle_runs (cv := Sample.cv) Sample.world (Sample.config [Sample.trade_b] 150 60)
      AutomationEngine.init statuses clicked s1 s2 s3 s4 /\
    (clicked = true -> Engine.injected s4 = Engine.injected s3).
Proof.
  assert (Henv : environment_ok Sample.world (Sample.config [Sample.trade_b] 150 60))
    by apply sample_environment.
  destruct (refresh_trigger (cv := Sample.cv) Sample.world
              (Sample.config [Sample.trade_b] 150 60) AutomationEngine.init Henv)
    as (statuses & clicked & s1 & s2 & s3 & s4 & Hrun & _ & _ & _ & Hprio).
  exists statuses, clicked, s1, s2, s3, s4. split; assumption.
Defined.

(** C1, as written, fails when the refresh interval is zero.  One trade
    shows a red gem and its start button is matched inactive, so the trade
    trigger does not click; no status is without a red gem and none reports
    a disabled flag; the interval, zero, has elapsed since the last refresh
    click; and there is no refresh click. *)
Lemma refresh_not_fired_at_zero_interval :
  let config := Sample.config [Sample.trade_a] 300 0 in
  exists statuses s1 s2 s3 s4,
    cycle_runs (cv := Sample.cv) Sample.world config AutomationEngine.init
      statuses false s1 s2 s3 s4 /\
    Engine.injected s2 = Engine.injected s1 /\
    (TimingConfig.refresh_interval (AppConfig.timing config)
     <= time_time Sample.world (Engine.clock_reads s3) - Engine._last_refresh_ts s3)%Q /\
    Engine.injected s4 = Engine.injected s3 /\
    ~ (Engine.injected s4 = Engine.injected s3 ++ [AppConfig.refresh_button config]
       <-> (no_red statuses \/ all_disabled statuses \/
            (TimingConfig.refresh_interval (AppConfig.timing config)
             <= time_time Sample.world (Engine.clock_reads s3)
                - Engine._last_refresh_ts s3)%Q)).
Proof.
  cbv zeta.
  assert (Henv : environment_ok Sample.world (Sample.config [Sample.trade_a] 300 0))
    by apply sample_environment.
  destruct (cycle_stages (cv := Sample.cv) Sample.world _ Henv AutomationEngine.init)
    as (statuses & clicked & s1 & s2 & s3 & s4 & Hrun).
  pose proof Hrun as ((d & Hev & Hs1) & Htr & Hco & Hre & _).
  assert (Hst : statuses = [TradeStatus.mk "a" 1 true (Some false) None (Some 0%Q)]).
  { vm_compute in Hev. now injection Hev as <- _. }
  subst statuses.
  rewrite (handle_trades_run _ _ (proj1 Henv)) in Htr. injection Htr as <- Hs2.
  rewrite (handle_collect_run _ _ (proj1 Henv)) in Hco. injection Hco as Hs3.
  rewrite (handle_refresh_run _ _ (proj1 Henv)) in Hre. injection Hre as Hs4.
  cbn in Hs2. rewrite with_clicks_nil in Hs2. subst s2.
  exists [TradeStatus.mk "a" 1 true (Some false) None (Some 0%Q)], s1, s1, s3, s4.
  split; [exact Hrun |]. split; [reflexivity |].
  assert (Hin : Engine.injected s4 = Engine.injected s3) by (subst s4; reflexivity).
  assert (Hel : (0 <= time_time Sample.world (Engine.clock_reads s3)
                      - Engine._last_refresh_ts s3)%Q).
  { subst s3 s1. vm_compute. discriminate. }
  split; [exact Hel |]. split; [exact Hin |].
  intros [_ Hback]. specialize (Hback (or_intror (or_intror Hel))).
  rewrite Hin in Hback. symmetry in Hback.
  now apply app_one_ne in Hback.
Qed.

Lemma Qle_minus_zero (a b : Q) : (a <= b)%Q -> (a <= b - 0)%Q.
Proof.
  intros H. unfold Qminus. change (- 0)%Q with 0%Q. now rewrite Qplus_0_r.
Qed.

(** C10, as the program has it.  Both timestamps are 0.0 at construction.
    In the first cycle after it, in an environment where clicks succeed
    and with a clock that reads at least the two intervals: the
    collect trigger clicks when its interval is positive; when the refresh
    interval is positive it has already elapsed, and the refresh trigger
    clicks unless the trade trigger clicked. *)
Theorem first_cycle_fires {cv : OpenCV} (w : World) (config : AppConfig.t) :
  environment_ok w config ->
  (forall n, (TimingConfig.collect_interval (AppConfig.timing config) <= time_time w n)%Q) ->
  (forall n, (TimingConfig.refresh_interval (AppConfig.timing config) <= time_time w n)%Q) ->
  Engine._last_collect_ts AutomationEngine.init = 0%Q /\
  Engine._last_refresh_ts AutomationEngine.init = 0%Q /\
  exists statuses clicked s1 s2 s3 s4,
    cycle_runs w config AutomationEngine.init statuses clicked s1 s2 s3 s4 /\
    ((0 < TimingConfig.collect_interval (AppConfig.timing config))%Q ->
     Engine.injected s3 = Engine.injected s2 ++ [AppConfig.collect_button config]) /\
    ((0 < TimingConfig.refresh_interval (AppConfig.timing config))%Q ->
     (TimingConfig.refresh_interval (AppConfig.timing config)
      <= time_time w (Engine.clock_reads s3) - Engine._last_refresh_ts s3)%Q /\
     (clicked = false ->
      Engine.injected s4 = Engine.injected s3 ++ [AppConfig.refresh_button config])) /\
    (clicked = true -> Engine.injected s4 = Engine.injected s3).
Proof.
  intros Henv Hcollect Hrefresh.
  split; [reflexivity |]. split; [reflexivity |].
  destruct (cycle_stages w config Henv AutomationEngine.init)
    as (statuses & clicked & s1 & s2 & s3 & s4 & Hrun).
  exists statuses, clicked, s1, s2, s3, s4. split; [exact Hrun |].
  destruct Hrun as ((d & _ & Hs1) & Htr & Hco & Hre & _).
  rewrite (handle_trades_run w config (proj1 Henv)) in Htr. cbv zeta in Htr.
  injection Htr as _ Hs2.
  assert (Hc2 : Engine._last_collect_ts s2 = 0%Q) by (subst s2 s1; reflexivity).
  assert (Hr2 : Engine._last_refresh_ts s2 = 0%Q) by (subst s2 s1; reflexivity).
  pose proof (handle_collect_cases w config Henv s2 s3 Hco) as (_ & Hfire & _).
  cbv zeta in Hfire. rewrite Hc2 in Hfire.
  assert (Hr3 : Engine._last_refresh_ts s3 = 0%Q).
  { rewrite (handle_collect_run w config (proj1 Henv)) in Hco. cbv zeta in Hco.
    injection Hco as <-.
    destruct (Qle_bool _ 0); [exact Hr2 |]. destruct (Qle_bool _ _); exact Hr2. }
  rewrite (handle_refresh_run w config (proj1 Henv)) in Hre. cbv zeta in Hre.
  injection Hre as Hs4. rewrite Hr3 in Hs4 |- *.
  pose proof (refresh_condition_reflect statuses clicked
                (TimingConfig.refresh_interval (AppConfig.timing config))
                (time_time w (Engine.clock_reads s3) - 0)) as Hcond.
  cbv zeta in Hcond.
  split; [| split].
  - intros Hpos. apply Hfire; [exact Hpos |]. apply Qle_minus_zero, Hcollect.
  - intros Hpos. split; [apply Qle_minus_zero, Hrefresh |].
    intros ->.
    assert (Hc : (negb (existsb TradeStatus.has_red_gem statuses)
                  || (0 <? length (omap TradeStatus.start_disabled statuses))%nat
                     && forallb id (omap TradeStatus.start_disabled statuses)
                  || negb (Qle_bool (TimingConfig.refresh_interval (AppConfig.timing config)) 0)
                     && Qle_bool (TimingConfig.refresh_interval (AppConfig.timing config))
                          (time_time w (Engine.clock_reads s3) - 0))
                 && negb false = true).
    { apply Hcond. split; [reflexivity |]. right. right.
      split; [exact Hpos | apply Qle_minus_zero, Hrefresh]. }
    rewrite Hc in Hs4. subst s4. reflexivity.
  - intros ->. rewrite andb_false_r in Hs4. subst s4. reflexivity.
Qed.

(** The theorem at the sample configuration with intervals 300 and 60 and
    a clock that reads 1000 and more. *)
Lemma first_cycle_fires_witness :
  exists statuses clicked s1 s2 s3 s4,
    cycle_runs (cv := Sample.cv) Sample.world (Sample.config [Sample.trade_a] 300 60)
      AutomationEngine.init statuses clicked s1 s2 s3 s4 /\
    Engine.injected s3 = Engine.injected s2 ++ [Point.mk 500 600] /\
    (clicked = false -> Engine.injected s4 = Engine.injected s3 ++ [Point.mk 700 800]).
Proof.
  assert (Henv : environment_ok Sample.world (Sample.config [Sample.trade_a] 300 60))
    by apply sample_environment.
  assert (Hc : forall n, (300 <= time_time Sample.world n)%Q)
    by (intros n; unfold Qle; cbn; lia).
  assert (Hr : forall n, (60 <= time_time Sample.world n)%Q)
    by (intros n; unfold Qle; cbn; lia).
  destruct (first_cycle_fires (cv := Sample.cv) Sample.world
              (Sample.config [Sample.trade_a] 300 60) Henv Hc Hr)
    as (_ & _ & statuses & clicked & s1 & s2 & s3 & s4 & Hrun & Hco & Hre & _).
  exists statuses, clicked, s1, s2, s3, s4. split; [exact Hrun |].
  split; [now apply Hco | now apply Hre].
Defined.

(** C10, as written, fails when the refresh interval is zero: the clock
    reads more than both intervals, the first cycle injects no trade click,
    it clicks collect, and it does not click refresh. *)
Lemma first_cycle_without_refresh :
  let config := Sample.config [Sample.trade_a] 300 0 in
  (forall n, (TimingConfig.collect_interval (AppConfig.timing config)
              < time_time Sample.world n)%Q) /\
  (forall n, (TimingConfig.refresh_interval (AppConfig.timing config)
              < time_time Sample.world n)%Q) /\
  exists st',
    AutomationEngine.cycle (cv := Sample.cv) Sample.world config AutomationEngine.init
    = (Ok tt, st') /\
    Engine.injected st' = [AppConfig.collect_button config] /\
    AppConfig.refresh_button config ∉ Engine.injected st'.
Proof.
  cbv zeta. split; [intros n; unfold Qlt; cbn; lia |].
  split; [intros n; unfold Qlt; cbn; lia |].
  exists (AutomationEngine.cycle (cv := Sample.cv) Sample.world
            (Sample.config [Sample.trade_a] 300 0) AutomationEngine.init).2.
  split; [vm_compute; reflexivity |].
  assert (Hinj : Engine.injected
                   (AutomationEngine.cycle (cv := Sample.cv) Sample.world
                      (Sample.config [Sample.trade_a] 300 0) AutomationEngine.init).2
                 = [Point.mk 500 600]) by (vm_compute; reflexivity).
  rewrite Hinj. split; [reflexivity |].
  intros H. apply list_elem_of_singleton in H. discriminate.
Qed.

(** * Further properties of the code *)

(** ** ScreenGrabber._bounded_region, on requests that meet the monitor *)

(** X2.  A request that lies within the monitor and is at least 1x1 is captured
    as asked. *)
Theorem bounded_region_fixed (monitor region : Region.t) :
  inside monitor region ->
  1 <= Region.width region -> 1 <= Region.height region ->
  ScreenGrabber._bounded_region monitor region = region.
Proof.
  destruct region as [l t w0 h]. unfold inside, ScreenGrabber._bounded_region. cbn.
  intros (Hl & Hr & Ht & Hb) Hw Hh. f_equal; lia.
Qed.

Lemma bounded_region_fixed_witness :
  ScreenGrabber._bounded_region (Region.mk 0 0 100 100) (Region.mk 10 20 5 7)
  = Region.mk 10 20 5 7.
Proof.
  apply bounded_region_fixed; unfold inside; cbn; lia.
Defined.

(** X3.  Clamping twice is clamping once, for every monitor and every request. *)
Theorem bounded_region_idempotent (monitor region : Region.t) :
  ScreenGrabber._bounded_region monitor (ScreenGrabber._bounded_region monitor region)
  = ScreenGrabber._bounded_region monitor region.
Proof.
  unfold ScreenGrabber._bounded_region. cbn. f_equal; lia.
Qed.

(** X1.  When the request meets the monitor, the capture is exactly their
    intersection: its left and top edges are the greater of the two left
    and of the two top edges, its right and bottom edges the lesser of the
    two right and of the two bottom edges; so a pixel is captured exactly
    when it is both on the monitor and in the request. *)
Theorem bounded_region_intersection (monitor region : Region.t) :
  overlaps monitor region ->
  let bounded := ScreenGrabber._bounded_region monitor region in
  Region.left bounded = Z.max (Region.left monitor) (Region.left region) /\
  Region.top bounded = Z.max (Region.top monitor) (Region.top region) /\
  Region.left bounded + Region.width bounded
  = Z.min (Region.left monitor + Region.width monitor)
          (Region.left region + Region.width region) /\
  Region.top bounded + Region.height bounded
  = Z.min (Region.top monitor + Region.height monitor)
          (Region.top region + Region.height region) /\
  forall x y, contains bounded x y <-> contains monitor x y /\ contains region x y.
Proof.
  unfold overlaps, contains, ScreenGrabber._bounded_region. cbn.
  intros [Hx Hy]. repeat split; lia.
Qed.

Lemma bounded_region_intersection_witness :
  ScreenGrabber._bounded_region (Region.mk 0 0 100 100) (Region.mk 90 (-5) 30 10)
  = Region.mk 90 0 10 5 /\
  forall x y,
    contains (ScreenGrabber._bounded_region (Region.mk 0 0 100 100) (Region.mk 90 (-5) 30 10))
      x y
    <-> contains (Region.mk 0 0 100 100) x y /\ contains (Region.mk 90 (-5) 30 10) x y.
Proof.
  split; [reflexivity |].
  apply (bounded_region_intersection (Region.mk 0 0 100 100) (Region.mk 90 (-5) 30 10)).
  unfold overlaps. cbn. lia.
Defined.

(** ** ColorDetector.red_ratio as a function of the pixels and of the ranges *)

Lemma filter_length_zero {A} (f : A -> bool) (l : list A) :
  length (List.filter f l) = 0%nat <-> forall a, In a l -> f a = false.
Proof.
  induction l as [| a l IH]; cbn.
  - split; [intros _ a [] | reflexivity].
  - destruct (f a) eqn:E; cbn.
    + split; [discriminate |]. intros H. rewrite (H a) in E by now left. discriminate.
    + rewrite IH. split.
      * intros H x [<- | Hx]; auto.
      * intros H x Hx. apply H. now right.
Qed.

Lemma filter_length_all {A} (f : A -> bool) (l : list A) :
  length (List.filter f l) = length l <-> forall a, In a l -> f a = true.
Proof.
  induction l as [| a l IH]; cbn.
  - split; [intros _ a [] | reflexivity].
  - pose proof (List.filter_length_le f l) as Hle.
    destruct (f a) eqn:E; cbn.
    + split.
      * intros H x [<- | Hx]; [exact E |]. apply IH; [lia | exact Hx].
      * intros H. f_equal. apply IH. intros x Hx. apply H. now right.
    + split; [lia |]. intros H. rewrite (H a) in E by now left. discriminate.
Qed.

Lemma filter_length_perm {A} (f : A -> bool) (l l' : list A) :
  l ≡ₚ l' -> length (List.filter f l) = length (List.filter f l').
Proof.
  induction 1 as [| a l l' _ IH | a b l | l l' l'' _ IH1 _ IH2]; cbn.
  - reflexivity.
  - destruct (f a); cbn; now rewrite IH.
  - destruct (f a), (f b); reflexivity.
  - congruence.
Qed.

Lemma hits_pixels {cv : OpenCV} (ranges : list HSVRange.t) (code : px3 -> px3)
    (frame : array px3) :
  hits ranges (map (map code) frame)
  = length (List.filter (fun p => masked ranges (code p)) (concat frame)).
Proof.
  unfold hits. rewrite concat_map_map.
  induction (concat frame) as [| p l IH]; cbn; [reflexivity |].
  destruct (masked ranges (code p)); cbn; now rewrite IH.
Qed.

Lemma quotient_zero (a n : nat) :
  n <> 0%nat -> (inject_Z (Z.of_nat a) / inject_Z (Z.of_nat n) == 0)%Q <-> a = 0%nat.
Proof.
  intros Hn.
  assert (Hn' : ~ (inject_Z (Z.of_nat n) == 0)%Q).
  { change 0%Q with (inject_Z 0). rewrite inject_Z_injective. lia. }
  split.
  - intros H.
    assert (Ha : (inject_Z (Z.of_nat a) == inject_Z 0)%Q).
    { rewrite <- (Qmult_div_r (inject_Z (Z.of_nat a)) (inject_Z (Z.of_nat n)) Hn'), H.
      now rewrite Qmult_0_r. }
    rewrite inject_Z_injective in Ha. lia.
  - intros ->. unfold Qdiv. now rewrite Qmult_0_l.
Qed.

Lemma quotient_one (a n : nat) :
  n <> 0%nat -> (inject_Z (Z.of_nat a) / inject_Z (Z.of_nat n) == 1)%Q <-> a = n.
Proof.
  intros Hn.
  assert (Hn' : ~ (inject_Z (Z.of_nat n) == 0)%Q).
  { change 0%Q with (inject_Z 0). rewrite inject_Z_injective. lia. }
  split.
  - intros H.
    assert (Ha : (inject_Z (Z.of_nat a) == inject_Z (Z.of_nat n))%Q).
    { rewrite <- (Qmult_div_r (inject_Z (Z.of_nat a)) (inject_Z (Z.of_nat n)) Hn'), H.
      now rewrite Qmult_1_r. }
    rewrite inject_Z_injective in Ha. lia.
  - intros ->. now apply Qmult_inv_r.
Qed.

(** The sample ranges have bounds that fit 32 bits. *)
Lemma sample_ranges_plain : Forall plain Sample.red_ranges.
Proof.
  repeat constructor; unfold int32; cbn; lia.
Qed.

(** X4.  On a frame with at least one pixel and with ranges whose bounds fit
    32 bits, the ratio is zero exactly when no pixel is within a configured
    range, and one exactly when every pixel is within some configured
    range; with no range at all it is zero. *)
Theorem red_ratio_extremes {cv : OpenCV} (ranges : list HSVRange.t) (frame : array px3) :
  size frame <> 0%nat ->
  Forall plain ranges ->
  exists q,
    ColorDetector.red_ratio ranges frame = Ok q /\
    ((q == 0)%Q <-> forall p, In p (concat frame) -> covered ranges (bgr2hsv p) = false) /\
    ((q == 1)%Q <-> forall p, In p (concat frame) -> covered ranges (bgr2hsv p) = true) /\
    (ranges = [] -> (q == 0)%Q).
Proof.
  intros Hsize Hplain. rewrite red_ratio_eq, (plain_accepted ranges Hplain).
  apply Nat.eqb_neq in Hsize as Hb. rewrite Hb. eexists. split; [reflexivity |].
  rewrite hits_pixels.
  erewrite List.filter_ext; [| intros p; apply (plain_masked ranges _ Hplain)].
  assert (H0 : (inject_Z (Z.of_nat (length (List.filter
                   (fun p => covered ranges (bgr2hsv p)) (concat frame))))
                / inject_Z (Z.of_nat (size frame)) == 0)%Q
               <-> forall p, In p (concat frame) -> covered ranges (bgr2hsv p) = false).
  { rewrite (quotient_zero _ _ Hsize). apply filter_length_zero. }
  split; [exact H0 |]. split.
  - rewrite (quotient_one _ _ Hsize). apply filter_length_all.
  - intros ->. apply H0. reflexivity.
Qed.

Lemma red_ratio_extremes_witness :
  exists q,
    ColorDetector.red_ratio (cv := Sample.cv) Sample.red_ranges
      [[Sample.red; Sample.red]; [Sample.red; Sample.red]] = Ok q /\ (q == 1)%Q.
Proof.
  destruct (red_ratio_extremes (cv := Sample.cv) Sample.red_ranges
              [[Sample.red; Sample.red]; [Sample.red; Sample.red]])
    as (q & Hq & _ & H1 & _); [cbn; lia | apply sample_ranges_plain |].
  exists q. split; [exact Hq |]. apply H1.
  intros p Hp. cbn in Hp. intuition (subst; reflexivity).
Defined.

(** X5.  The ratio depends on the pixels of the frame only, not on where they
    are: two frames with the same pixels up to order, whatever their
    shapes, have the same ratio (or both raise, being empty). *)
Theorem red_ratio_permutation {cv : OpenCV} (ranges : list HSVRange.t)
    (frame frame' : array px3) :
  concat frame ≡ₚ concat frame' ->
  ColorDetector.red_ratio ranges frame = ColorDetector.red_ratio ranges frame'.
Proof.
  intros Hp. rewrite !red_ratio_eq, !hits_pixels.
  assert (Hs : size frame = size frame') by (unfold size; now rewrite Hp).
  rewrite Hs, (filter_length_perm _ _ _ Hp). reflexivity.
Qed.

Lemma red_ratio_permutation_witness :
  ColorDetector.red_ratio (cv := Sample.cv) Sample.red_ranges
    [[Sample.red; Sample.grey]; [Sample.grey; Sample.grey]]
  = ColorDetector.red_ratio (cv := Sample.cv) Sample.red_ranges
      [[Sample.grey; Sample.grey; Sample.red; Sample.grey]].
Proof.
  apply red_ratio_permutation. cbn.
  change (Sample.red :: ([Sample.grey; Sample.grey] ++ [Sample.grey])
          ≡ₚ [Sample.grey; Sample.grey] ++ Sample.red :: [Sample.grey]).
  apply Permutation_middle.
Defined.

Lemma masked_set {cv : OpenCV} (A B : list HSVRange.t) (p : px3) :
  (forall rg, rg ∈ A <-> rg ∈ B) -> masked A p = masked B p.
Proof.
  intros Hset. unfold masked.
  apply eq_true_iff_eq. rewrite !existsb_exists. split.
  - intros (rg & Hin & Hw). exists rg. split; [| exact Hw].
    now apply list_elem_of_In, Hset, list_elem_of_In.
  - intros (rg & Hin & Hw). exists rg. split; [| exact Hw].
    now apply list_elem_of_In, Hset, list_elem_of_In.
Qed.

Lemma accepted_set {cv : OpenCV} (A B : list HSVRange.t) :
  (forall rg, rg ∈ A <-> rg ∈ B) -> accepted A = accepted B.
Proof.
  intros Hset. unfold accepted.
  apply eq_true_iff_eq. rewrite !forallb_forall. split.
  - intros H rg Hin. apply H. now apply list_elem_of_In, Hset, list_elem_of_In.
  - intros H rg Hin. apply H. now apply list_elem_of_In, Hset, list_elem_of_In.
Qed.

(** X6.  The ratio depends on which ranges are configured only, not on their
    order nor on how often one is repeated. *)
Theorem red_ratio_ranges_set {cv : OpenCV} (A B : list HSVRange.t) (frame : array px3) :
  (forall rg, rg ∈ A <-> rg ∈ B) ->
  ColorDetector.red_ratio A frame = ColorDetector.red_ratio B frame.
Proof.
  intros Hset. rewrite !red_ratio_eq, !hits_pixels, (accepted_set A B Hset).
  assert (Hf : List.filter (fun p => masked A (bgr2hsv p)) (concat frame)
               = List.filter (fun p => masked B (bgr2hsv p)) (concat frame)).
  { apply List.filter_ext. intros p. now apply masked_set. }
  now rewrite Hf.
Qed.

Lemma red_ratio_ranges_set_witness :
  ColorDetector.red_ratio (cv := Sample.cv) Sample.red_ranges [[Sample.red; Sample.grey]]
  = ColorDetector.red_ratio (cv := Sample.cv)
      (rev Sample.red_ranges ++ Sample.red_ranges) [[Sample.red; Sample.grey]].
Proof.
  apply red_ratio_ranges_set. intros rg. unfold Sample.red_ranges. cbn.
  rewrite !elem_of_cons, !elem_of_nil. tauto.
Defined.

(** ** ColorDetector.has_red *)

Lemma has_red_eq {cv : OpenCV} (ranges : list HSVRange.t) (frame : array px3)
    (threshold : Q) :
  size frame <> 0%nat ->
  accepted ranges = true ->
  ColorDetector.has_red ranges frame threshold
  = Ok (Qle_bool threshold
          (inject_Z (Z.of_nat (hits ranges (map (map bgr2hsv) frame)))
           / inject_Z (Z.of_nat (size frame)))%Q).
Proof.
  intros Hsize Hacc. unfold ColorDetector.has_red. rewrite red_ratio_eq, Hacc.
  apply Nat.eqb_neq in Hsize. now rewrite Hsize.
Qed.

(** X7.  On a frame with at least one pixel and with ranges whose bounds fit
    32 bits: a threshold of zero or less always detects, a threshold above
    one never does, lowering the threshold keeps a detection, and so does
    adding ranges whose bounds fit 32 bits. *)
Theorem has_red_threshold {cv : OpenCV} (ranges : list HSVRange.t) (frame : array px3) :
  size frame <> 0%nat ->
  Forall plain ranges ->
  (forall threshold, (threshold <= 0)%Q ->
     ColorDetector.has_red ranges frame threshold = Ok true) /\
  (forall threshold, (1 < threshold)%Q ->
     ColorDetector.has_red ranges frame threshold = Ok false) /\
  (forall threshold lower, (lower <= threshold)%Q ->
     ColorDetector.has_red ranges frame threshold = Ok true ->
     ColorDetector.has_red ranges frame lower = Ok true) /\
  (forall threshold more,
     Forall plain more ->
     ColorDetector.has_red ranges frame threshold = Ok true ->
     ColorDetector.has_red (ranges ++ more) frame threshold = Ok true).
Proof.
  intros Hsize Hplain. pose proof (plain_accepted ranges Hplain) as Hacc.
  pose proof (quotient_bounds (hits ranges (map (map bgr2hsv) frame)) (size frame)) as Hb.
  destruct Hb as [Hb0 Hb1]; [| exact Hsize |].
  { rewrite <- (size_map bgr2hsv frame). apply hits_le_size. }
  repeat split.
  - intros threshold Ht. rewrite has_red_eq by assumption. f_equal.
    apply Qle_bool_iff. now apply Qle_trans with 0%Q.
  - intros threshold Ht. rewrite has_red_eq by assumption. f_equal.
    apply Qle_bool_false. now apply Qle_lt_trans with 1%Q.
  - intros threshold lower Hl. rewrite !has_red_eq by assumption.
    intros [= H]. f_equal. apply Qle_bool_iff. apply Qle_bool_iff in H.
    now apply Qle_trans with threshold.
  - intros threshold more Hmore.
    assert (Hacc' : accepted (ranges ++ more) = true)
      by (apply plain_accepted, Forall_app; auto).
    rewrite !has_red_eq by assumption.
    intros [= H]. f_equal. apply Qle_bool_iff. apply Qle_bool_iff in H.
    eapply Qle_trans; [exact H |]. apply quotient_mono; [apply hits_app_l | exact Hsize].
Qed.

Lemma has_red_threshold_witness :
  ColorDetector.has_red (cv := Sample.cv) Sample.red_ranges [[Sample.grey]] 0 = Ok true /\
  ColorDetector.has_red (cv := Sample.cv) Sample.red_ranges [[Sample.red]] 2 = Ok false.
Proof.
  destruct (has_red_threshold (cv := Sample.cv) Sample.red_ranges [[Sample.grey]])
    as (Hlow & _); [cbn; lia | apply sample_ranges_plain |].
  destruct (has_red_threshold (cv := Sample.cv) Sample.red_ranges [[Sample.red]])
    as (_ & Hhigh & _); [cbn; lia | apply sample_ranges_plain |].
  split; [apply Hlow; discriminate | apply Hhigh; reflexivity].
Defined.

(** ** What a computation keeps *)

Section Keeps.
Context {S : Type} (R : S -> S -> Prop) `{!PreOrder R}.

Lemma keeps_ret {A} (a : A) : keeps R (ret a).
Proof. intros s. reflexivity. Qed.

Lemma keeps_raise {A} (e : exn) : keeps R (@raise S A e).
Proof. intros s. reflexivity. Qed.

Lemma keeps_lift {A} (r : result A) : keeps R (lift r).
Proof. intros s. reflexivity. Qed.

Lemma keeps_gets {A} (f : S -> A) : keeps R (gets f).
Proof. intros s. reflexivity. Qed.

Lemma keeps_modify (f : S -> S) : (forall s, R s (f s)) -> keeps R (modify f).
Proof. intros H s. apply H. Qed.

Lemma keeps_bind {A B} (c : M S A) (k : A -> M S B) :
  keeps R c -> (forall a, keeps R (k a)) -> keeps R (bind c k).
Proof.
  intros Hc Hk s. unfold bind. specialize (Hc s).
  destruct (c s) as [[a | e] s1]; cbn in *; [| exact Hc].
  etransitivity; [exact Hc | apply Hk].
Qed.

Lemma keeps_try_except {A} (c : M S A) (h : exn -> M S A) :
  keeps R c -> (forall e, keeps R (h e)) -> keeps R (try_except c h).
Proof.
  intros Hc Hh s. unfold try_except. specialize (Hc s).
  destruct (c s) as [[a | e] s1]; cbn in *; [exact Hc |].
  etransitivity; [exact Hc | apply Hh].
Qed.
End Keeps.

(** ** The template cache and the matcher *)

#[local] Instance matcher_step_preorder (templates : gmap string TemplateConfig.t) :
  PreOrder (matcher_step templates).
Proof.
  split.
  - intros s. unfold matcher_step. auto.
  - intros s1 s2 s3 (Hs & Hc & Hn & Hf) (Hs' & Hc' & Hn' & Hf'). unfold matcher_step.
    split; [now transitivity (Detection._cache s2) |].
    split; [auto |]. split; congruence.
Qed.

Section MatcherKeeps.
Context {cv : OpenCV} (w : World) (templates : gmap string TemplateConfig.t).

Lemma load_template_keeps_step (name : string) :
  keeps (matcher_step templates) (TemplateMatcher._load_template w templates name).
Proof.
  intros st. unfold TemplateMatcher._load_template.
  destruct (templates !! name) as [config |] eqn:Ht; [| reflexivity]. run.
  destruct (Detection._cache st !! name) as [entry |] eqn:Hc; [reflexivity |].
  destruct (files w (TemplateConfig.path config)); cbn; try reflexivity.
  unfold matcher_step. cbn. split; [now apply insert_subseteq |].
  split; [| split; reflexivity].
  intros Hcons other image' threshold' Hl.
  destruct (decide (name = other)) as [<- | Hne].
  - rewrite lookup_insert_eq in Hl. injection Hl as <- <-. eauto.
  - rewrite lookup_insert_ne in Hl by exact Hne. eauto.
Qed.

Lemma match_keeps_step (frame : array px3) (name : string) :
  keeps (matcher_step templates) (TemplateMatcher.match_ w templates frame name).
Proof.
  unfold TemplateMatcher.match_.
  apply keeps_bind; [apply _ | apply load_template_keeps_step |].
  intros [template threshold].
  apply keeps_bind; [apply _ | apply keeps_lift; apply _ |]. intros gray.
  destruct (_ || _); [apply keeps_ret; apply _ |].
  apply keeps_bind; [apply _ | apply keeps_lift; apply _ |]. intros res.
  apply keeps_bind; [apply _ | apply keeps_lift; apply _ |]. intros [lo hi].
  apply keeps_ret; apply _.
Qed.

(** What a successful load leaves behind. *)
Lemma load_template_resident (name : string) (entry : array Z * Q)
    (st st' : Detection.state) :
  TemplateMatcher._load_template w templates name st = (Ok entry, st') ->
  is_Some (templates !! name) /\ Detection._cache st' !! name = Some entry.
Proof.
  unfold TemplateMatcher._load_template.
  destruct (templates !! name) as [config |] eqn:Ht; [| discriminate]. run.
  destruct (Detection._cache st !! name) as [e |] eqn:Hc.
  - intros [= <- <-]. eauto.
  - destruct (files w (TemplateConfig.path config)); cbn; try discriminate.
    intros [= <- <-]. cbn. rewrite lookup_insert_eq. eauto.
Qed.

(** After its load, [match_] does not touch the state. *)
Lemma match_after_load (frame : array px3) (name : string) (r : result (bool * Q))
    (st st' : Detection.state) :
  TemplateMatcher.match_ w templates frame name st = (r, st') ->
  st' = (TemplateMatcher._load_template w templates name st).2.
Proof.
  unfold TemplateMatcher.match_, bind.
  destruct (TemplateMatcher._load_template w templates name st)
    as [[[template threshold] | e] st1]; cbn; [| now intros [= _ <-]].
  unfold lift. destruct (cvtColor bgr2gray frame) as [gray | e]; [| now intros [= _ <-]].
  destruct (_ || _); [now intros [= _ <-] |].
  destruct (TemplateMatcher.matchTemplate gray template) as [res | e];
    [| now intros [= _ <-]].
  destruct (TemplateMatcher.minMaxLoc res) as [[lo hi] | e]; now intros [= _ <-].
Qed.
End MatcherKeeps.

(** X8.  A template that has matched once is matched from the cache from then
    on: the same frame gets the same answer, whatever the files have
    become, and the state is left alone. *)
Theorem match_stable {cv : OpenCV} (w w2 : World) (templates : gmap string TemplateConfig.t)
    (frame : array px3) (name : string) (answer : bool * Q) (st st' : Detection.state) :
  TemplateMatcher.match_ w templates frame name st = (Ok answer, st') ->
  TemplateMatcher.match_ w2 templates frame name st' = (Ok answer, st').
Proof.
  intros Hm. pose proof (match_after_load w templates frame name _ st st' Hm) as Hst.
  revert Hm. unfold TemplateMatcher.match_, bind.
  destruct (TemplateMatcher._load_template w templates name st)
    as [[entry | e] st1] eqn:Hload; [| discriminate].
  cbn in Hst. subst st1.
  destruct (load_template_resident w templates name entry st st' Hload) as [[config Ht] Hc].
  rewrite (load_template_cached w2 templates name config entry st' Ht Hc).
  destruct entry as [template threshold].
  unfold lift. destruct (cvtColor bgr2gray frame) as [gray | e]; [| discriminate].
  destruct (_ || _); [now intros [= <-] |].
  destruct (TemplateMatcher.matchTemplate gray template) as [res | e]; [| discriminate].
  destruct (TemplateMatcher.minMaxLoc res) as [[lo hi] | e]; [| discriminate].
  now intros [= <-].
Qed.

Lemma match_stable_witness :
  exists answer st',
    TemplateMatcher.match_ (cv := Sample.cv) Sample.world
      (AppConfig.templates (Sample.config [] 300 60)) [[Sample.red]] "start" Detection.init
    = (Ok answer, st') /\
    TemplateMatcher.match_ (cv := Sample.cv) Sample.world_no_file
      (AppConfig.templates (Sample.config [] 300 60)) [[Sample.red]] "start" st'
    = (Ok answer, st').
Proof.
  eexists _, _. split; [reflexivity |].
  apply (match_stable (cv := Sample.cv) Sample.world Sample.world_no_file
           (AppConfig.templates (Sample.config [] 300 60)) [[Sample.red]] "start"
           _ Detection.init).
  reflexivity.
Defined.

(** ** DetectionManager.evaluate_trade, step by step *)

Section EvaluateTrade.
Context {cv : OpenCV} (w : World) (config : AppConfig.t).

(** [grab] takes one screenshot, of the clamped region, whatever comes of it. *)
Lemma grab_run (monitor region : Region.t) (st : Detection.state) :
  ScreenGrabber.grab w monitor region st
  = (result_bind
       (sct_grab w (Detection.captures st) (ScreenGrabber._bounded_region monitor region))
       (cvtColor bgra2bgr),
     Detection.tick st).
Proof.
  unfold ScreenGrabber.grab, bind, gets, modify, lift. cbn.
  destruct (sct_grab w _ _); reflexivity.
Qed.

Lemma evaluate_trade_no_frame (trade : TradeConfig.t) (st : Detection.state) (e : exn) :
  (ScreenGrabber.grab w (AppConfig.monitor config) (TradeConfig.region trade) st).1 = Raise e ->
  DetectionManager.evaluate_trade w config trade st = (Raise e, Detection.tick st).
Proof.
  rewrite grab_run. cbn. intros He.
  unfold DetectionManager.evaluate_trade, bind at 1. rewrite grab_run, He. reflexivity.
Qed.

Lemma evaluate_trade_framed (trade : TradeConfig.t) (st : Detection.state)
    (frame : array px3) :
  (ScreenGrabber.grab w (AppConfig.monitor config) (TradeConfig.region trade) st).1 = Ok frame ->
  matcher_step (AppConfig.templates config) (with_frame trade frame st)
    (DetectionManager.evaluate_trade w config trade st).2.
Proof.
  rewrite grab_run. cbn. intros Hf.
  unfold DetectionManager.evaluate_trade.
  rewrite (bind_ok _ _ st (Detection.tick st) frame) by (rewrite grab_run, Hf; reflexivity).
  unfold bind at 1, modify at 1. cbv beta iota. fold (with_frame trade frame st).
  set (R := matcher_step (AppConfig.templates config)).
  apply (keeps_bind R); [apply keeps_lift; apply _ |]. intros ratio.
  apply (keeps_bind R).
  - destruct (_ && _); [| apply keeps_ret; apply _].
    apply (keeps_bind R); [apply match_keeps_step |].
    intros [active score_val]. apply keeps_ret; apply _.
  - intros [start_active score]. apply (keeps_bind R).
    + destruct (_ && _); [| apply keeps_ret; apply _].
      apply (keeps_bind R); [apply match_keeps_step |].
      intros [disabled score_val]. apply keeps_ret; apply _.
    + intros [start_disabled score']. apply keeps_ret; apply _.
Qed.

(** The anatomy of a status that [evaluate_trade] returns. *)
Lemma evaluate_trade_ok (trade : TradeConfig.t) (st st' : Detection.state)
    (status : TradeStatus.t) :
  DetectionManager.evaluate_trade w config trade st = (Ok status, st') ->
  exists frame ratio,
    (ScreenGrabber.grab w (AppConfig.monitor config) (TradeConfig.region trade) st).1
    = Ok frame /\
    ColorDetector.red_ratio (AppConfig.hsv_ranges config) frame = Ok ratio /\
    TradeStatus.name status = TradeConfig.name trade /\
    TradeStatus.red_ratio status = ratio /\
    TradeStatus.has_red_gem status = Qle_bool (TradeConfig.red_ratio_threshold trade) ratio /\
    let templates := AppConfig.templates config in
    let st0 := with_frame trade frame st in
    let start := default ""%string (TradeConfig.start_template trade) in
    let gray := default ""%string (TradeConfig.start_gray_template trade) in
    match uses_start config trade, uses_gray config trade with
    | false, false =>
        st' = st0 /\
        TradeStatus.start_active status = None /\
        TradeStatus.start_disabled status = None /\
        TradeStatus.template_score status = None
    | true, false =>
        exists active s1,
          TemplateMatcher.match_ w templates frame start st0 = (Ok (active, s1), st') /\
          TradeStatus.start_active status = Some active /\
          TradeStatus.start_disabled status = None /\
          TradeStatus.template_score status = Some s1
    | false, true =>
        exists disabled s2,
          TemplateMatcher.match_ w templates frame gray st0 = (Ok (disabled, s2), st') /\
          TradeStatus.start_active status = None /\
          TradeStatus.start_disabled status = Some disabled /\
          TradeStatus.template_score status = Some (py_max 0 s2)
    | true, true =>
        exists active s1 st1 disabled s2,
          TemplateMatcher.match_ w templates frame start st0 = (Ok (active, s1), st1) /\
          TemplateMatcher.match_ w templates frame gray st1 = (Ok (disabled, s2), st') /\
          TradeStatus.start_active status = Some active /\
          TradeStatus.start_disabled status = Some disabled /\
          TradeStatus.template_score status = Some (py_max (or_zero (Some s1)) s2)
    end.
Proof.
  unfold DetectionManager.evaluate_trade. unfold bind at 1.
  rewrite grab_run. cbn [fst].
  destruct (result_bind _ _) as [frame | e]; [| discriminate].
  unfold bind at 1, modify at 1. cbv beta iota. fold (with_frame trade frame st).
  unfold bind at 1, lift at 1.
  destruct (ColorDetector.red_ratio (AppConfig.hsv_ranges config) frame)
    as [ratio | e] eqn:Er; [| discriminate].
  cbv beta iota. fold (uses_start config trade) (uses_gray config trade).
  cbv zeta. unfold bind at 1.
  destruct (uses_start config trade).
  - unfold bind at 1.
    destruct (TemplateMatcher.match_ w _ frame _ (with_frame trade frame st))
      as [[[active s1] | e] st1] eqn:E1; [| discriminate].
    unfold ret at 1. cbv beta iota. unfold bind at 1.
    destruct (uses_gray config trade).
    + unfold bind at 1.
      destruct (TemplateMatcher.match_ w _ frame _ st1)
        as [[[disabled s2] | e] st2] eqn:E2; [| discriminate].
      unfold ret. intros [= <- <-]. exists frame, ratio; cbn; do 5 (split; [first [reflexivity | exact Er] |]).
      exists active, s1, st1, disabled, s2. repeat split; assumption.
    + unfold ret. intros [= <- <-]. exists frame, ratio; cbn; do 5 (split; [first [reflexivity | exact Er] |]).
      exists active, s1. repeat split; assumption.
  - unfold ret at 1. cbv beta iota. unfold bind at 1.
    destruct (uses_gray config trade).
    + unfold bind at 1.
      destruct (TemplateMatcher.match_ w _ frame _ (with_frame trade frame st))
        as [[[disabled s2] | e] st2] eqn:E2; [| discriminate].
      unfold ret. intros [= <- <-]. exists frame, ratio; cbn; do 5 (split; [first [reflexivity | exact Er] |]).
      exists disabled, s2. repeat split; assumption.
    + unfold ret. intros [= <- <-]. exists frame, ratio; cbn;
        do 5 (split; [first [reflexivity | exact Er] |]). repeat split.
Qed.
End EvaluateTrade.

Lemma red_ratio_bounds {cv : OpenCV} (ranges : list HSVRange.t) (frame : array px3) (q : Q) :
  ColorDetector.red_ratio ranges frame = Ok q -> (0 <= q <= 1)%Q.
Proof.
  rewrite red_ratio_eq. destruct (size frame =? 0)%nat eqn:E; [discriminate |].
  destruct (accepted ranges); [| discriminate].
  intros [= <-]. apply Nat.eqb_neq in E. apply quotient_bounds; [| exact E].
  rewrite <- (size_map bgr2hsv frame). apply hits_le_size.
Qed.

Lemma py_max_Qmax (a b : Q) : (py_max a b == Qmax a b)%Q.
Proof.
  unfold py_max. destruct (Qle_bool b a) eqn:E.
  - apply Qle_bool_iff in E. symmetry. now apply Q.max_l.
  - apply Qle_bool_false in E. symmetry. apply Q.max_r. now apply Qlt_le_weak.
Qed.

Lemma or_zero_some (s : Q) : (or_zero (Some s) == s)%Q.
Proof.
  cbn. destruct (Qeq_bool s 0) eqn:E; [| reflexivity].
  apply Qeq_bool_iff in E. now symmetry.
Qed.

Section EvaluateTradeFacts.
Context {cv : OpenCV} (w : World) (config : AppConfig.t).

(** What one evaluation does to the state of the detection manager,
    whether it returns or raises. *)
Lemma evaluate_trade_effect (trade : TradeConfig.t) (st : Detection.state) :
  let st' := (DetectionManager.evaluate_trade w config trade st).2 in
  Detection._cache st ⊆ Detection._cache st' /\
  (cache_consistent (AppConfig.templates config) (Detection._cache st) ->
   cache_consistent (AppConfig.templates config) (Detection._cache st')) /\
  Detection.captures st' = S (Detection.captures st) /\
  Detection._last_frames st'
  = match (ScreenGrabber.grab w (AppConfig.monitor config) (TradeConfig.region trade) st).1 with
    | Ok frame => <[TradeConfig.name trade := frame]> (Detection._last_frames st)
    | Raise _ => Detection._last_frames st
    end.
Proof.
  cbv zeta.
  destruct (ScreenGrabber.grab w (AppConfig.monitor config) (TradeConfig.region trade) st).1
    as [frame | e] eqn:Hg.
  - destruct (evaluate_trade_framed w config trade st frame Hg) as (Hs & Hc & Hn & Hf).
    rewrite Hn, Hf. repeat split; assumption.
  - rewrite (evaluate_trade_no_frame w config trade st e Hg). cbn. repeat split; auto.
Qed.

Lemma evaluate_loop_cons (trade : TradeConfig.t) (rest : list TradeConfig.t)
    (done : list TradeStatus.t) (st : Detection.state) :
  DetectionManager.evaluate_loop w config (trade :: rest) done st
  = DetectionManager.evaluate_loop w config rest
      (done ++ [match (DetectionManager.evaluate_trade w config trade st).1 with
                | Ok status => status
                | Raise _ => DetectionManager.neutral (TradeConfig.name trade)
                end])
      (DetectionManager.evaluate_trade w config trade st).2.
Proof.
  cbn [DetectionManager.evaluate_loop]. unfold bind, try_except.
  destruct (DetectionManager.evaluate_trade w config trade st) as [[status | e] st1];
    reflexivity.
Qed.

Lemma evaluate_loop_effect (trades : list TradeConfig.t) :
  forall (done : list TradeStatus.t) (st : Detection.state),
    Detection._cache st
      ⊆ Detection._cache (DetectionManager.evaluate_loop w config trades done st).2 /\
    (cache_consistent (AppConfig.templates config) (Detection._cache st) ->
     cache_consistent (AppConfig.templates config)
       (Detection._cache (DetectionManager.evaluate_loop w config trades done st).2)) /\
    Detection.captures (DetectionManager.evaluate_loop w config trades done st).2
    = (Detection.captures st + length trades)%nat.
Proof.
  induction trades as [| trade rest IH]; intros done st.
  - cbn. repeat split; auto.
  - rewrite evaluate_loop_cons. cbn [length].
    destruct (evaluate_trade_effect trade st) as (Hs & Hc & Hn & _). cbv zeta in *.
    match goal with
    | |- context [DetectionManager.evaluate_loop w config rest ?d ?s] =>
        destruct (IH d s) as (Hs' & Hc' & Hn')
    end.
    split; [etransitivity; eassumption |]. split; [auto |]. rewrite Hn', Hn. lia.
Qed.
End EvaluateTradeFacts.

(** ** DetectionManager: what an evaluation reports and what it leaves *)

(** X12.  Evaluating all trades never removes or changes an entry of the template
    cache, and keeps the cache consistent with the configuration: each
    entry under the name of a configured template, with its threshold. *)
Theorem evaluate_all_cache {cv : OpenCV} (w : World) (config : AppConfig.t)
    (st : Detection.state) :
  let st' := (DetectionManager.evaluate_all w config st).2 in
  Detection._cache st ⊆ Detection._cache st' /\
  (cache_consistent (AppConfig.templates config) (Detection._cache st) ->
   cache_consistent (AppConfig.templates config) (Detection._cache st')) /\
  cache_consistent (AppConfig.templates config) (Detection._cache Detection.init).
Proof.
  cbv zeta. destruct (evaluate_loop_effect w config (AppConfig.trades config) [] st)
    as (Hs & Hc & _).
  split; [exact Hs |]. split; [exact Hc |].
  intros name image threshold Hl. cbn in Hl. now rewrite lookup_empty in Hl.
Qed.

(** X13.  Evaluating all trades takes exactly one screenshot per configured
    trade, whether the evaluations succeed or fail. *)
Theorem evaluate_all_captures {cv : OpenCV} (w : World) (config : AppConfig.t)
    (st : Detection.state) :
  Detection.captures (DetectionManager.evaluate_all w config st).2
  = (Detection.captures st + length (AppConfig.trades config))%nat.
Proof. apply (evaluate_loop_effect w config (AppConfig.trades config) [] st). Qed.

(** X9.  [evaluate_trade] records the frame it captured under the name of the
    trade before it analyses it: the frame is kept even when the analysis
    raises, and nothing is recorded when the capture fails. *)
Theorem evaluate_trade_last_frame {cv : OpenCV} (w : World) (config : AppConfig.t)
    (trade : TradeConfig.t) (st : Detection.state) :
  Detection._last_frames (DetectionManager.evaluate_trade w config trade st).2
  = match (ScreenGrabber.grab w (AppConfig.monitor config) (TradeConfig.region trade) st).1 with
    | Ok frame => <[TradeConfig.name trade := frame]> (Detection._last_frames st)
    | Raise _ => Detection._last_frames st
    end.
Proof. apply (evaluate_trade_effect w config trade st). Qed.

(** X10.  The two flags and the score of a returned status are set exactly when
    the corresponding template is named by the trade and templates are
    configured; when neither is, no template is loaded. *)
Theorem evaluate_trade_flags {cv : OpenCV} (w : World) (config : AppConfig.t)
    (trade : TradeConfig.t) (st st' : Detection.state) (status : TradeStatus.t) :
  DetectionManager.evaluate_trade w config trade st = (Ok status, st') ->
  (TradeStatus.start_active status <> None <-> uses_start config trade = true) /\
  (TradeStatus.start_disabled status <> None <-> uses_gray config trade = true) /\
  (TradeStatus.template_score status <> None
   <-> uses_start config trade || uses_gray config trade = true) /\
  (uses_start config trade || uses_gray config trade = false ->
   Detection._cache st' = Detection._cache st).
Proof.
  intros H. apply evaluate_trade_ok in H as (frame & ratio & _ & _ & _ & _ & _ & H).
  cbv zeta in H.
  destruct (uses_start config trade), (uses_gray config trade); cbn.
  - destruct H as (a & s1 & st1 & d & s2 & _ & _ & -> & -> & ->).
    repeat split; try discriminate; auto.
  - destruct H as (a & s1 & _ & -> & -> & ->).
    repeat split; try discriminate; auto; intros H; congruence.
  - destruct H as (d & s2 & _ & -> & -> & ->).
    repeat split; try discriminate; auto; intros H; congruence.
  - destruct H as (-> & -> & -> & ->).
    repeat split; try discriminate; auto; intros H; congruence.
Qed.

Lemma evaluate_trade_flags_witness :
  exists status st',
    DetectionManager.evaluate_trade (cv := Sample.cv) Sample.world
      (Sample.config [] 300 60) Sample.trade_b Detection.init = (Ok status, st') /\
    TradeStatus.template_score status = None /\
    Detection._cache st' = ∅.
Proof.
  eexists _, _. split; [reflexivity |].
  split; [reflexivity |].
  apply (evaluate_trade_flags (cv := Sample.cv) Sample.world (Sample.config [] 300 60)
           Sample.trade_b Detection.init _ _ eq_refl).
  reflexivity.
Defined.

(** X11.  The score of a returned status.  With both templates it is the
    greater of the two correlation scores; with the grayed template alone
    it is the greater of 0.0 and its score, so never negative; with the
    start template alone it is its score. *)
Theorem evaluate_trade_score {cv : OpenCV} (w : World) (config : AppConfig.t)
    (trade : TradeConfig.t) (st st' : Detection.state) (status : TradeStatus.t) :
  DetectionManager.evaluate_trade w config trade st = (Ok status, st') ->
  exists frame,
    (ScreenGrabber.grab w (AppConfig.monitor config) (TradeConfig.region trade) st).1
    = Ok frame /\
    let templates := AppConfig.templates config in
    let st0 := with_frame trade frame st in
    let start := default ""%string (TradeConfig.start_template trade) in
    let gray := default ""%string (TradeConfig.start_gray_template trade) in
    (uses_start config trade = true -> uses_gray config trade = true ->
     exists active s1 st1 disabled s2 s,
       TemplateMatcher.match_ w templates frame start st0 = (Ok (active, s1), st1) /\
       TemplateMatcher.match_ w templates frame gray st1 = (Ok (disabled, s2), st') /\
       TradeStatus.start_active status = Some active /\
       TradeStatus.start_disabled status = Some disabled /\
       TradeStatus.template_score status = Some s /\ (s == Qmax s1 s2)%Q) /\
    (uses_start config trade = false -> uses_gray config trade = true ->
     exists disabled s2 s,
       TemplateMatcher.match_ w templates frame gray st0 = (Ok (disabled, s2), st') /\
       TradeStatus.start_disabled status = Some disabled /\
       TradeStatus.template_score status = Some s /\ (s == Qmax 0 s2)%Q /\ (0 <= s)%Q) /\
    (uses_start config trade = true -> uses_gray config trade = false ->
     exists active s1,
       TemplateMatcher.match_ w templates frame start st0 = (Ok (active, s1), st') /\
       TradeStatus.start_active status = Some active /\
       TradeStatus.template_score status = Some s1).
Proof.
  intros H. apply evaluate_trade_ok in H as (frame & ratio & Hg & _ & _ & _ & _ & H).
  exists frame. split; [exact Hg |]. cbv zeta in *.
  destruct (uses_start config trade), (uses_gray config trade);
    (split; [| split]); try (intros; discriminate).
  - intros _ _. destruct H as (a & s1 & st1 & d & s2 & H1 & H2 & Ha & Hd & Hs).
    exists a, s1, st1, d, s2, (py_max (or_zero (Some s1)) s2).
    repeat (split; [assumption |]).
    rewrite py_max_Qmax. now rewrite or_zero_some.
  - intros _ _. destruct H as (a & s1 & H1 & Ha & _ & Hs). eauto.
  - intros _ _. destruct H as (d & s2 & H2 & _ & Hd & Hs).
    exists d, s2, (py_max 0 s2). repeat (split; [assumption |]).
    split; [apply py_max_Qmax |].
    rewrite py_max_Qmax. apply Q.le_max_l.
Qed.

Lemma evaluate_trade_score_witness :
  exists status st' frame active s1,
    DetectionManager.evaluate_trade (cv := Sample.cv) Sample.world
      (Sample.config [] 300 60) Sample.trade_a Detection.init = (Ok status, st') /\
    TemplateMatcher.match_ (cv := Sample.cv) Sample.world
      (AppConfig.templates (Sample.config [] 300 60)) frame "start"
      (with_frame Sample.trade_a frame Detection.init) = (Ok (active, s1), st') /\
    TradeStatus.template_score status = Some s1.
Proof.
  destruct (evaluate_trade_score (cv := Sample.cv) Sample.world (Sample.config [] 300 60)
              Sample.trade_a Detection.init _ _ eq_refl)
    as (frame & _ & _ & _ & H).
  destruct (H eq_refl eq_refl) as (active & s1 & Hm & _ & Hs).
  eexists _, _, frame, active, s1. split; [vm_compute; reflexivity |].
  split; [exact Hm | exact Hs].
Defined.

Lemma evaluated_statuses {cv : OpenCV} (w : World) (config : AppConfig.t)
    (st st' : Detection.state) (trades : list TradeConfig.t)
    (statuses : list TradeStatus.t) :
  evaluated w config st trades statuses st' ->
  Forall2
    (fun trade status =>
       TradeStatus.name status = TradeConfig.name trade /\
       (0 <= TradeStatus.red_ratio status <= 1)%Q /\
       (TradeStatus.has_red_gem status = true ->
        (TradeConfig.red_ratio_threshold trade <= TradeStatus.red_ratio status)%Q) /\
       (TradeStatus.start_active status <> None -> uses_start config trade = true) /\
       (TradeStatus.start_disabled status <> None -> uses_gray config trade = true))
    trades statuses.
Proof.
  induction 1 as [| s trade status s1 rest l s2 Hok _ IH | s trade e s1 rest l s2 _ _ IH].
  - constructor.
  - constructor; [| exact IH].
    apply evaluate_trade_ok in Hok as (frame & ratio & _ & Hr & Hn & Hq & Hg & Ht).
    split; [exact Hn |]. subst ratio. split; [now apply red_ratio_bounds in Hr |].
    split; [rewrite Hg; apply Qle_bool_iff |]. cbv zeta in Ht.
    destruct (uses_start config trade), (uses_gray config trade).
    + split; intros _; reflexivity.
    + destruct Ht as (a & sa & _ & _ & Hd & _).
      split; [intros _; reflexivity | rewrite Hd; congruence].
    + destruct Ht as (d & sd & _ & Ha & _).
      split; [rewrite Ha; congruence | intros _; reflexivity].
    + destruct Ht as (_ & Ha & Hd & _). rewrite Ha, Hd. split; congruence.
  - constructor; [| exact IH]. cbn.
    repeat split; try discriminate; congruence.
Qed.

(** X14.  What [evaluate_all] reports, trade by trade: the status carries the name
    of the trade, its ratio lies between 0 and 1, it shows a red gem only
    if the ratio reaches the threshold of the trade, and a flag is set only
    if the trade names the template and templates are configured. *)
Theorem evaluate_all_statuses {cv : OpenCV} (w : World) (config : AppConfig.t)
    (st : Detection.state) :
  exists statuses st',
    DetectionManager.evaluate_all w config st = (Ok statuses, st') /\
    Forall2
      (fun trade status =>
         TradeStatus.name status = TradeConfig.name trade /\
         (0 <= TradeStatus.red_ratio status <= 1)%Q /\
         (TradeStatus.has_red_gem status = true ->
          (TradeConfig.red_ratio_threshold trade <= TradeStatus.red_ratio status)%Q) /\
         (TradeStatus.start_active status <> None -> uses_start config trade = true) /\
         (TradeStatus.start_disabled status <> None -> uses_gray config trade = true))
      (AppConfig.trades config) statuses.
Proof.
  destruct (evaluate_all_total w config st) as (statuses & st' & Hrun & Hev).
  exists statuses, st'. split; [exact Hrun |]. now apply evaluated_statuses in Hev.
Qed.

(** ** ClickExecutor.click, for every world *)

Lemma click_paused (w : World) (config : ClickConfig.t) (point : Point.t)
    (pause : option Q) (st : Engine.state) :
  ClickExecutor.click w config point pause st
  = match click_check w config with
    | Ok _ =>
        (match pause with
         | Some secs => if Qeq_bool secs 0 then Ok tt else sleep_check secs
         | None => Ok tt
         end,
         Engine.inject point st)
    | Raise e => (Raise e, st)
    end.
Proof.
  pose proof (click_any w config point st) as Hany.
  unfold ClickExecutor.click, bind in *.
  destruct (if ClickExecutor._use_win32 w config then _ else _) as [[[] | e] s1];
    destruct (click_check w config) as [[] | e']; try discriminate.
  - injection Hany as ->. destruct pause as [secs |]; [| reflexivity].
    destruct (Qeq_bool secs 0); reflexivity.
  - exact Hany.
Qed.

(** X15.  Which backend [click] uses and what it leaves, whatever becomes of
    the call.  It injects at most one click, at the point asked, and has
    injected it when it returns.  When the backend it chooses was not
    importable it raises [RuntimeError] and injects nothing.  A request
    for win32 without win32 is served as a request for pyautogui.  A pause
    of 0.0 is no pause. *)
Theorem click_outcome (w : World) (config : ClickConfig.t) (point : Point.t)
    (pause : option Q) (st : Engine.state) :
  let r := ClickExecutor.click w config point pause st in
  (r.2 = st \/ r.2 = Engine.inject point st) /\
  (r.1 = Ok tt -> r.2 = Engine.inject point st) /\
  ((ClickConfig.use_win32 config && win32api w) || pyautogui w = false ->
   r = (Raise RuntimeError, st)) /\
  (win32api w = false ->
   r = ClickExecutor.click w
         (ClickConfig.mk false (ClickConfig.win32_press_duration config)
            (ClickConfig.move_cursor_back config))
         point pause st) /\
  (forall secs, pause = Some secs -> (secs == 0)%Q ->
   r = ClickExecutor.click w config point None st).
Proof.
  cbv zeta. rewrite !click_paused.
  split; [| split; [| split; [| split]]].
  - destruct (click_check w config); auto.
  - destruct (click_check w config); [reflexivity | discriminate].
  - unfold click_check, ClickExecutor._use_win32, ClickExecutor._win32_available.
    destruct (ClickConfig.use_win32 config && win32api w); [discriminate |].
    destruct (pyautogui w); [discriminate | reflexivity].
  - intros Hw. unfold click_check, ClickExecutor._use_win32, ClickExecutor._win32_available.
    rewrite Hw, andb_false_r. reflexivity.
  - intros secs -> H0. apply Qeq_bool_iff in H0. rewrite H0. reflexivity.
Qed.

(** ** The handlers of AutomationEngine, for every world *)

Section HandlersAny.
Context {cv : OpenCV} (w : World) (config : AppConfig.t).

Lemma engine_click_any (point : Point.t) (st : Engine.state) :
  AutomationEngine._click w config point st
  = match click_check w (AppConfig.clicks config) with
    | Ok _ => (Ok tt, Engine.inject point st)
    | Raise e => (Raise e, st)
    end.
Proof. apply click_any. Qed.

Lemma handle_trades_loop_cons (trade : TradeConfig.t) (status : TradeStatus.t)
    (rest : list (TradeConfig.t * TradeStatus.t)) (any_click : bool) (st : Engine.state) :
  AutomationEngine._handle_trades_loop w config ((trade, status) :: rest) any_click st
  = if trade_triggers status then
      match click_check w (AppConfig.clicks config) with
      | Ok _ =>
          match sleep_check (AutomationEngine.post_click_delay config) with
          | Ok _ => AutomationEngine._handle_trades_loop w config rest true
                      (Engine.inject (TradeConfig.start_button trade) st)
          | Raise e => (Raise e, Engine.inject (TradeConfig.start_button trade) st)
          end
      | Raise e => (Raise e, st)
      end
    else AutomationEngine._handle_trades_loop w config rest any_click st.
Proof.
  assert (Hclick :
    bind (bind (AutomationEngine._click w config (TradeConfig.start_button trade))
               (fun _ => bind (time_sleep (AutomationEngine.post_click_delay config))
                           (fun _ => ret true)))
         (fun a => AutomationEngine._handle_trades_loop w config rest a) st
    = match click_check w (AppConfig.clicks config) with
      | Ok _ =>
          match sleep_check (AutomationEngine.post_click_delay config) with
          | Ok _ => AutomationEngine._handle_trades_loop w config rest true
                      (Engine.inject (TradeConfig.start_button trade) st)
          | Raise e => (Raise e, Engine.inject (TradeConfig.start_button trade) st)
          end
      | Raise e => (Raise e, st)
      end).
  { unfold bind. rewrite engine_click_any.
    destruct (click_check w (AppConfig.clicks config)) as [[] | e]; [| reflexivity].
    unfold time_sleep, lift.
    destruct (sleep_check (AutomationEngine.post_click_delay config)) as [[] | e];
      reflexivity. }
  cbn [AutomationEngine._handle_trades_loop].
  unfold trade_triggers, assume_active.
  destruct (TradeStatus.has_red_gem status); cbn [andb]; [| reflexivity].
  destruct (TradeStatus.start_active status) as [[|] |]; cbn [default];
    first [exact Hclick | reflexivity].
Qed.

Lemma handle_trades_loop_shape (pairs : list (TradeConfig.t * TradeStatus.t)) :
  forall (any_click : bool) (st : Engine.state),
  exists l,
    (AutomationEngine._handle_trades_loop w config pairs any_click st).2 = with_clicks l st /\
    l `prefix_of` flat_map trade_clicks pairs /\
    match (AutomationEngine._handle_trades_loop w config pairs any_click st).1 with
    | Ok answer =>
        l = flat_map trade_clicks pairs /\
        answer = any_click || existsb (fun pair => trade_triggers pair.2) pairs
    | Raise e =>
        flat_map trade_clicks pairs <> [] /\
        (can_click w config = false -> e = RuntimeError /\ l = [])
    end.
Proof.
  induction pairs as [| [trade status] rest IH]; intros any_click st.
  - exists []. cbn. rewrite with_clicks_nil, orb_false_r. repeat split. reflexivity.
  - assert (Hc : trade_clicks (trade, status)
                 = if trade_triggers status then [TradeConfig.start_button trade] else [])
      by reflexivity.
    rewrite handle_trades_loop_cons. cbn [flat_map existsb snd]. rewrite !Hc.
    destruct (trade_triggers status); cbn [app orb]; [| apply IH].
    destruct (click_check w (AppConfig.clicks config)) as [[] | e] eqn:Ec.
    + apply click_check_ok in Ec.
      destruct (sleep_check (AutomationEngine.post_click_delay config)) as [[] | e].
      * destruct (IH true (Engine.inject (TradeConfig.start_button trade) st))
          as (l & Hs & Hp & Hr).
        exists (TradeConfig.start_button trade :: l).
        rewrite Hs, with_clicks_inject. split; [reflexivity |].
        split; [now apply prefix_cons |].
        destruct (AutomationEngine._handle_trades_loop w config rest true _).1.
        -- destruct Hr as [-> ->]. split; [reflexivity |]. now rewrite orb_true_r.
        -- split; [discriminate |]. intros Hn. congruence.
      * exists [TradeConfig.start_button trade]. cbn. split; [reflexivity |].
        split; [apply prefix_cons, prefix_nil |].
        split; [discriminate |]. intros Hn. congruence.
    + exists []. cbn. rewrite with_clicks_nil. split; [reflexivity |].
      split; [apply prefix_nil |]. split; [discriminate |].
      intros Hn. rewrite (click_check_no_backend w config Hn) in Ec.
      injection Ec as <-. auto.
Qed.

Lemma handle_collect_any (st : Engine.state) :
  let now := time_time w (Engine.clock_reads st) in
  let interval := TimingConfig.collect_interval (AppConfig.timing config) in
  let due := negb (Qle_bool interval 0)
             && Qle_bool interval (now - Engine._last_collect_ts st) in
  AutomationEngine._handle_collect w config st
  = if due then
      match click_check w (AppConfig.clicks config) with
      | Ok _ =>
          (sleep_check (AutomationEngine.post_click_delay config),
           Engine.set_last_collect_ts now
             (Engine.inject (AppConfig.collect_button config) (Engine.read_clock st)))
      | Raise e => (Raise e, Engine.read_clock st)
      end
    else (Ok tt, Engine.read_clock st).
Proof.
  cbv zeta.
  unfold AutomationEngine._handle_collect, time_now, bind, gets, modify, ret.
  cbv beta iota. cbn [Engine._last_collect_ts Engine.read_clock].
  destruct (Qle_bool _ 0); cbn [negb andb]; [reflexivity |].
  destruct (Qle_bool _ _); [| reflexivity].
  rewrite engine_click_any.
  destruct (click_check w (AppConfig.clicks config)) as [[] | e]; reflexivity.
Qed.

Lemma handle_refresh_any (statuses : list TradeStatus.t) (click_performed : bool)
    (st : Engine.state) :
  let now := time_time w (Engine.clock_reads st) in
  let interval := TimingConfig.refresh_interval (AppConfig.timing config) in
  let refresh_due :=
    negb (Qle_bool interval 0) && Qle_bool interval (now - Engine._last_refresh_ts st) in
  let no_red := negb (existsb TradeStatus.has_red_gem statuses) in
  let flags := omap TradeStatus.start_disabled statuses in
  let all_disabled := (0 <? length flags)%nat && forallb id flags in
  AutomationEngine._handle_refresh w config statuses click_performed st
  = if (no_red || all_disabled || refresh_due) && negb click_performed then
      match click_check w (AppConfig.clicks config) with
      | Ok _ =>
          (sleep_check (AutomationEngine.post_click_delay config),
           Engine.set_last_refresh_ts now
             (Engine.inject (AppConfig.refresh_button config) (Engine.read_clock st)))
      | Raise e => (Raise e, Engine.read_clock st)
      end
    else (Ok tt, Engine.read_clock st).
Proof.
  cbv zeta.
  unfold AutomationEngine._handle_refresh, time_now, bind, gets, modify, ret.
  cbv beta iota. cbn [Engine._last_refresh_ts Engine.read_clock].
  match goal with |- context [if ?c then _ else _] => destruct c end; [| reflexivity].
  rewrite engine_click_any.
  destruct (click_check w (AppConfig.clicks config)) as [[] | e]; reflexivity.
Qed.
End HandlersAny.

(** X16.  For every world and every outcome, the trade trigger changes nothing of
    the engine but the injected clicks.  The clicks it injects are an
    initial part of the clicks the policy prescribes, in order, and all of
    them when it returns.  It raises only when the policy prescribes a
    click; without a click backend that is a [RuntimeError] at the first
    click prescribed, and nothing is injected. *)
Theorem handle_trades_frame {cv : OpenCV} (w : World) (config : AppConfig.t)
    (statuses : list TradeStatus.t) (st : Engine.state) :
  exists l,
    (AutomationEngine._handle_trades w config statuses st).2 = with_clicks l st /\
    l `prefix_of` flat_map trade_clicks (zip (AppConfig.trades config) statuses) /\
    match (AutomationEngine._handle_trades w config statuses st).1 with
    | Ok answer =>
        l = flat_map trade_clicks (zip (AppConfig.trades config) statuses) /\
        answer = existsb (fun pair => trade_triggers pair.2)
                   (zip (AppConfig.trades config) statuses)
    | Raise e =>
        flat_map trade_clicks (zip (AppConfig.trades config) statuses) <> [] /\
        (can_click w config = false -> e = RuntimeError /\ l = [])
    end.
Proof.
  apply (handle_trades_loop_shape w config
           (zip (AppConfig.trades config) statuses) false st).
Qed.

(** X17.  A timer moves only together with its click.  After the collect
    trigger the state is the one it found with the clock read once, or else
    the collect click was injected and the collect timer holds the reading;
    the same for the refresh trigger.  Without a click backend neither
    timer moves, so the click is due again in the next cycle. *)
Theorem timers_move_with_clicks {cv : OpenCV} (w : World) (config : AppConfig.t)
    (statuses : list TradeStatus.t) (click_performed : bool) (st : Engine.state) :
  let now := time_time w (Engine.clock_reads st) in
  let after_collect := (AutomationEngine._handle_collect w config st).2 in
  let after_refresh :=
    (AutomationEngine._handle_refresh w config statuses click_performed st).2 in
  (after_collect = Engine.read_clock st \/
   can_click w config = true /\
   after_collect
   = Engine.set_last_collect_ts now
       (Engine.inject (AppConfig.collect_button config) (Engine.read_clock st))) /\
  (after_refresh = Engine.read_clock st \/
   can_click w config = true /\
   after_refresh
   = Engine.set_last_refresh_ts now
       (Engine.inject (AppConfig.refresh_button config) (Engine.read_clock st))).
Proof.
  cbv zeta. split.
  - pose proof (handle_collect_any w config st) as H. cbv zeta in H. rewrite H.
    destruct (_ && _); [| now left].
    destruct (click_check w (AppConfig.clicks config)) as [[] | e] eqn:Ec; [right | now left].
    apply click_check_ok in Ec. auto.
  - pose proof (handle_refresh_any w config statuses click_performed st) as H.
    cbv zeta in H. rewrite H.
    destruct (_ && negb click_performed); [| now left].
    destruct (click_check w (AppConfig.clicks config)) as [[] | e] eqn:Ec; [right | now left].
    apply click_check_ok in Ec. auto.
Qed.

(** ** What a cycle and the run loop keep *)

Lemma flat_map_trade_clicks_length (pairs : list (TradeConfig.t * TradeStatus.t)) :
  (length (flat_map trade_clicks pairs) <= length pairs)%nat.
Proof.
  induction pairs as [| pair rest IH]; cbn; [lia |].
  rewrite length_app. unfold trade_clicks at 1.
  destruct (trade_triggers pair.2); cbn; lia.
Qed.

Lemma trade_clicks_are_buttons (config : AppConfig.t) (statuses : list TradeStatus.t)
    (l : list Point.t) :
  l `prefix_of` flat_map trade_clicks (zip (AppConfig.trades config) statuses) ->
  Forall (is_button config) l /\ (length l <= length (AppConfig.trades config))%nat.
Proof.
  intros Hp. split.
  - apply Forall_forall. intros p Hin. left.
    destruct Hp as [k Hk].
    assert (Hf : In p (flat_map trade_clicks (zip (AppConfig.trades config) statuses))).
    { rewrite Hk. apply in_or_app. left. now apply list_elem_of_In. }
    apply in_flat_map in Hf as ([trade status] & Hz & Hc).
    unfold trade_clicks in Hc. cbn in Hc.
    destruct (trade_triggers status); [| destruct Hc].
    destruct Hc as [<- | []].
    apply list_elem_of_In, in_map, list_elem_of_In.
    apply list_elem_of_In in Hz. now apply elem_of_zip_l in Hz.
  - apply prefix_length in Hp.
    pose proof (flat_map_trade_clicks_length (zip (AppConfig.trades config) statuses)).
    pose proof (length_zip_with pair (AppConfig.trades config) statuses).
    unfold zip in *. lia.
Qed.

#[local] Instance published_step_preorder : PreOrder published_step.
Proof.
  split.
  - intros s. split; reflexivity.
  - intros s1 s2 s3 [H1 H2] [H3 H4]. split; congruence.
Qed.

Lemma timer_step_trans (w : World) (timer : Engine.state -> Q) (s1 s2 s3 : Engine.state) :
  (Engine.clock_reads s1 <= Engine.clock_reads s2)%nat ->
  (Engine.clock_reads s2 <= Engine.clock_reads s3)%nat ->
  timer_step w timer s1 s2 -> timer_step w timer s2 s3 -> timer_step w timer s1 s3.
Proof.
  intros H12 H23 [E1 | (n & Hn & E1)] [E2 | (m & Hm & E2)].
  - left. congruence.
  - right. exists m. split; [lia | exact E2].
  - right. exists n. split; [lia | congruence].
  - right. exists m. split; [lia | exact E2].
Qed.

#[local] Instance run_step_preorder (w : World) (config : AppConfig.t) :
  PreOrder (run_step w config).
Proof.
  split.
  - intros s. unfold run_step. split; [reflexivity |]. split; [auto |].
    split; [exists []; split; [now rewrite app_nil_r | constructor] |].
    split; [lia |]. split; now left.
  - intros s1 s2 s3 (Hc & Hk & (l & Hl & Hb) & Hn & Ht & Hr)
      (Hc' & Hk' & (l' & Hl' & Hb') & Hn' & Ht' & Hr').
    unfold run_step. split; [etransitivity; eassumption |]. split; [auto |].
    split.
    { exists (l ++ l'). split; [rewrite Hl', Hl; now rewrite app_assoc |].
      now apply Forall_app. }
    split; [lia |]. split; eapply timer_step_trans; eassumption.
Qed.

Section CycleKeeps.
Context {cv : OpenCV} (w : World) (config : AppConfig.t).

Lemma run_step_read_clock (st : Engine.state) : run_step w config st (Engine.read_clock st).
Proof.
  unfold run_step. cbn. split; [reflexivity |]. split; [auto |].
  split; [exists []; split; [now rewrite app_nil_r | constructor] |].
  split; [lia |]. split; now left.
Qed.

Lemma run_step_with_clicks (l : list Point.t) (st : Engine.state) :
  Forall (is_button config) l -> run_step w config st (with_clicks l st).
Proof.
  intros Hl. unfold run_step. cbn. split; [reflexivity |]. split; [auto |].
  split; [exists l; auto |]. split; [lia |]. split; now left.
Qed.

Lemma run_step_collect (st : Engine.state) :
  run_step w config st
    (Engine.set_last_collect_ts (time_time w (Engine.clock_reads st))
       (Engine.inject (AppConfig.collect_button config) (Engine.read_clock st))).
Proof.
  unfold run_step, timer_step. cbn. split; [reflexivity |]. split; [auto |].
  split.
  { exists [AppConfig.collect_button config]. split; [reflexivity |].
    constructor; [| constructor]. right. now left. }
  split; [lia |]. split; [| now left].
  right. exists (Engine.clock_reads st). split; [lia | reflexivity].
Qed.

Lemma run_step_refresh (st : Engine.state) :
  run_step w config st
    (Engine.set_last_refresh_ts (time_time w (Engine.clock_reads st))
       (Engine.inject (AppConfig.refresh_button config) (Engine.read_clock st))).
Proof.
  unfold run_step, timer_step. cbn. split; [reflexivity |]. split; [auto |].
  split.
  { exists [AppConfig.refresh_button config]. split; [reflexivity |].
    constructor; [| constructor]. right. now right. }
  split; [lia |]. split; [now left |].
  right. exists (Engine.clock_reads st). split; [lia | reflexivity].
Qed.

Lemma handle_trades_keeps_run (statuses : list TradeStatus.t) :
  keeps (run_step w config) (AutomationEngine._handle_trades w config statuses).
Proof.
  intros st.
  destruct (handle_trades_loop_shape w config (zip (AppConfig.trades config) statuses)
              false st) as (l & Hs & Hp & _).
  unfold AutomationEngine._handle_trades. rewrite Hs.
  apply run_step_with_clicks. now apply trade_clicks_are_buttons in Hp.
Qed.

Lemma handle_collect_keeps_run :
  keeps (run_step w config) (AutomationEngine._handle_collect w config).
Proof.
  intros st. pose proof (handle_collect_any w config st) as H. cbv zeta in H.
  rewrite H. destruct (_ && _); [| apply run_step_read_clock].
  destruct (click_check w (AppConfig.clicks config)) as [[] | e];
    [apply run_step_collect | apply run_step_read_clock].
Qed.

Lemma handle_refresh_keeps_run (statuses : list TradeStatus.t) (click_performed : bool) :
  keeps (run_step w config)
    (AutomationEngine._handle_refresh w config statuses click_performed).
Proof.
  intros st.
  pose proof (handle_refresh_any w config statuses click_performed st) as H.
  cbv zeta in H. rewrite H.
  destruct (_ && negb click_performed); [| apply run_step_read_clock].
  destruct (click_check w (AppConfig.clicks config)) as [[] | e];
    [apply run_step_refresh | apply run_step_read_clock].
Qed.

Lemma time_now_keeps_run : keeps (run_step w config) (time_now w).
Proof. intros st. apply run_step_read_clock. Qed.

Lemma time_sleep_keeps_run (secs : Q) : keeps (run_step w config) (time_sleep secs).
Proof. intros st. rewrite sleep_state. reflexivity. Qed.

Lemma evaluate_keeps_run :
  keeps (run_step w config)
    (zoom Engine._detection Engine.set_detection (DetectionManager.evaluate_all w config)).
Proof.
  intros st. unfold zoom.
  destruct (evaluate_loop_effect w config (AppConfig.trades config) [] (Engine._detection st))
    as (Hc & Hk & _).
  fold (DetectionManager.evaluate_all w config) in Hc, Hk.
  destruct (DetectionManager.evaluate_all w config (Engine._detection st)) as [r d].
  unfold run_step. cbn in *. split; [exact Hc |]. split; [exact Hk |].
  split; [exists []; split; [now rewrite app_nil_r | constructor] |].
  split; [lia |]. split; now left.
Qed.

Lemma update_statuses_keeps_run (statuses : list TradeStatus.t) :
  keeps (run_step w config) (AutomationEngine._update_statuses statuses).
Proof.
  intros st. unfold run_step. cbn. split; [reflexivity |]. split; [auto |].
  split; [exists []; split; [now rewrite app_nil_r | constructor] |].
  split; [lia |]. split; now left.
Qed.

Lemma cycle_keeps_run : keeps (run_step w config) (AutomationEngine.cycle w config).
Proof.
  unfold AutomationEngine.cycle. cbv zeta.
  apply keeps_bind; [apply _ | apply time_now_keeps_run |]. intros cycle_start.
  apply keeps_bind; [apply _ | apply evaluate_keeps_run |]. intros statuses.
  apply keeps_bind; [apply _ | apply update_statuses_keeps_run |]. intros _.
  apply keeps_bind; [apply _ | apply handle_trades_keeps_run |]. intros clicked.
  apply keeps_bind; [apply _ | apply handle_collect_keeps_run |]. intros _.
  apply keeps_bind; [apply _ | apply handle_refresh_keeps_run |]. intros _.
  apply keeps_bind; [apply _ | apply time_now_keeps_run |]. intros t.
  apply time_sleep_keeps_run.
Qed.

Lemma run_loop_keeps_run (turns : list turn) :
  keeps (run_step w config) (AutomationEngine._run_loop w config turns).
Proof.
  induction turns as [| [| |] rest IH]; cbn [AutomationEngine._run_loop].
  - apply keeps_ret; apply _.
  - apply keeps_ret; apply _.
  - apply keeps_bind; [apply _ | apply time_sleep_keeps_run | intros _; exact IH].
  - apply keeps_bind; [apply _ | apply cycle_keeps_run | intros _; exact IH].
Qed.
End CycleKeeps.

Section CyclePublishes.
Context {cv : OpenCV} (w : World) (config : AppConfig.t).

Lemma published_read_clock (st : Engine.state) : published_step st (Engine.read_clock st).
Proof. split; reflexivity. Qed.

Lemma handle_trades_keeps_published (statuses : list TradeStatus.t) :
  keeps published_step (AutomationEngine._handle_trades w config statuses).
Proof.
  intros st.
  destruct (handle_trades_loop_shape w config (zip (AppConfig.trades config) statuses)
              false st) as (l & Hs & _).
  unfold AutomationEngine._handle_trades. rewrite Hs. split; reflexivity.
Qed.

Lemma handle_collect_keeps_published :
  keeps published_step (AutomationEngine._handle_collect w config).
Proof.
  intros st. pose proof (handle_collect_any w config st) as H. cbv zeta in H.
  rewrite H. destruct (_ && _); [| apply published_read_clock].
  destruct (click_check w (AppConfig.clicks config)) as [[] | e]; split; reflexivity.
Qed.

Lemma handle_refresh_keeps_published (statuses : list TradeStatus.t) (clicked : bool) :
  keeps published_step (AutomationEngine._handle_refresh w config statuses clicked).
Proof.
  intros st. pose proof (handle_refresh_any w config statuses clicked st) as H.
  cbv zeta in H. rewrite H.
  destruct (_ && negb clicked); [| apply published_read_clock].
  destruct (click_check w (AppConfig.clicks config)) as [[] | e]; split; reflexivity.
Qed.

Lemma clicks_step_mono (n m : nat) (s s' : Engine.state) :
  (n <= m)%nat -> clicks_step config n s s' -> clicks_step config m s s'.
Proof. intros Hnm (l & Hl & Hb & Hn). exists l. repeat split; auto. lia. Qed.

Lemma clicks_step_same (n : nat) (s s' : Engine.state) :
  Engine.injected s' = Engine.injected s -> clicks_step config n s s'.
Proof. intros H. exists []. rewrite H, app_nil_r. repeat split; auto. cbn. lia. Qed.

Lemma keeps_bind_clicks {A B} (n m : nat) (c : M Engine.state A)
    (k : A -> M Engine.state B) :
  keeps (clicks_step config n) c ->
  (forall a, keeps (clicks_step config m) (k a)) ->
  keeps (clicks_step config (n + m)) (bind c k).
Proof.
  intros Hc Hk s. unfold bind. specialize (Hc s).
  destruct (c s) as [[a | e] s1]; cbn in *.
  - destruct Hc as (l & Hl & Hb & Hn). destruct (Hk a s1) as (l' & Hl' & Hb' & Hn').
    exists (l ++ l'). rewrite Hl', Hl, app_assoc. split; [reflexivity |].
    split; [now apply Forall_app |]. rewrite length_app. lia.
  - apply clicks_step_mono with n; [lia | exact Hc].
Qed.

Lemma handle_trades_clicks_step (statuses : list TradeStatus.t) :
  keeps (clicks_step config (length (AppConfig.trades config)))
    (AutomationEngine._handle_trades w config statuses).
Proof.
  intros st.
  destruct (handle_trades_loop_shape w config (zip (AppConfig.trades config) statuses)
              false st) as (l & Hs & Hp & _).
  unfold AutomationEngine._handle_trades. rewrite Hs.
  apply trade_clicks_are_buttons in Hp as [Hb Hn].
  exists l. repeat split; assumption.
Qed.

Lemma handle_collect_clicks_step :
  keeps (clicks_step config 1) (AutomationEngine._handle_collect w config).
Proof.
  intros st. pose proof (handle_collect_any w config st) as H. cbv zeta in H.
  rewrite H.
  assert (H0 : clicks_step config 1 st (Engine.read_clock st))
    by (now apply clicks_step_same).
  destruct (_ && _); [| exact H0].
  destruct (click_check w (AppConfig.clicks config)) as [[] | e]; [| exact H0].
  exists [AppConfig.collect_button config]. cbn. split; [reflexivity |].
  split; [| lia]. constructor; [| constructor]. right. now left.
Qed.

Lemma handle_refresh_clicks_step (statuses : list TradeStatus.t) (clicked : bool) :
  keeps (clicks_step config 1) (AutomationEngine._handle_refresh w config statuses clicked).
Proof.
  intros st. pose proof (handle_refresh_any w config statuses clicked st) as H.
  cbv zeta in H. rewrite H.
  assert (H0 : clicks_step config 1 st (Engine.read_clock st))
    by (now apply clicks_step_same).
  destruct (_ && negb clicked); [| exact H0].
  destruct (click_check w (AppConfig.clicks config)) as [[] | e]; [| exact H0].
  exists [AppConfig.refresh_button config]. cbn. split; [reflexivity |].
  split; [| lia]. constructor; [| constructor]. right. now right.
Qed.
End CyclePublishes.

(** X18.  A cycle publishes the statuses it evaluated before it attempts any
    click: whatever becomes of the triggers, also when a click raises, the
    engine afterwards holds exactly the fresh statuses, one per configured
    trade, and the detection manager as the evaluation left it. *)
Theorem cycle_publishes {cv : OpenCV} (w : World) (config : AppConfig.t)
    (st : Engine.state) :
  exists statuses d,
    DetectionManager.evaluate_all w config (Engine._detection st) = (Ok statuses, d) /\
    Engine._last_statuses (AutomationEngine.cycle w config st).2 = statuses /\
    Engine._detection (AutomationEngine.cycle w config st).2 = d /\
    length statuses = length (AppConfig.trades config).
Proof.
  destruct (evaluate_all_total w config (Engine._detection st))
    as (statuses & d & Heval & Hev).
  exists statuses, d. split; [exact Heval |].
  assert (Hp : published_step
                 (Engine.set_last_statuses statuses
                    (Engine.set_detection d (Engine.read_clock st)))
                 (AutomationEngine.cycle w config st).2).
  { unfold AutomationEngine.cycle. cbv zeta.
    erewrite bind_ok by reflexivity.
    erewrite bind_ok
      by (unfold zoom; cbn [Engine._detection Engine.read_clock]; rewrite Heval; reflexivity).
    erewrite bind_ok by reflexivity.
    apply (keeps_bind published_step);
      [apply handle_trades_keeps_published |]. intros clicked.
    apply (keeps_bind published_step); [apply handle_collect_keeps_published |]. intros _.
    apply (keeps_bind published_step); [apply handle_refresh_keeps_published |]. intros _.
    apply (keeps_bind published_step); [intros s; apply published_read_clock |]. intros t.
    intros s. rewrite sleep_state. reflexivity. }
  destruct Hp as [Hd Hs]. rewrite Hs, Hd. cbn.
  split; [reflexivity |]. split; [reflexivity |]. now apply evaluated_length in Hev.
Qed.

(** X19.  In one cycle the engine injects at most one click per configured trade,
    one collect click and one refresh click; the clicks come after those
    already injected and all are at configured points, whatever the world. *)
Theorem cycle_clicks {cv : OpenCV} (w : World) (config : AppConfig.t)
    (st : Engine.state) :
  exists l,
    Engine.injected (AutomationEngine.cycle w config st).2 = Engine.injected st ++ l /\
    Forall (is_button config) l /\
    (length l <= length (AppConfig.trades config) + 2)%nat.
Proof.
  assert (H0 : forall A (c : M Engine.state A),
             (forall s, Engine.injected (c s).2 = Engine.injected s) ->
             keeps (clicks_step config 0) c).
  { intros A c Hc s. exists []. rewrite Hc, app_nil_r. repeat split; auto. }
  assert (H : keeps (clicks_step config
                       (0 + (0 + (0 + (length (AppConfig.trades config)
                                       + (1 + (1 + (0 + 0))))))))
                (AutomationEngine.cycle w config)).
  { unfold AutomationEngine.cycle. cbv zeta.
    apply keeps_bind_clicks; [apply H0; reflexivity |]. intros cycle_start.
    apply keeps_bind_clicks.
    { apply H0. intros s. unfold zoom.
      destruct (DetectionManager.evaluate_all w config (Engine._detection s)); reflexivity. }
    intros statuses.
    apply keeps_bind_clicks; [apply H0; reflexivity |]. intros _.
    apply keeps_bind_clicks; [apply handle_trades_clicks_step |]. intros clicked.
    apply keeps_bind_clicks; [apply handle_collect_clicks_step |]. intros _.
    apply keeps_bind_clicks; [apply handle_refresh_clicks_step |]. intros _.
    apply keeps_bind_clicks; [apply H0; reflexivity |]. intros t.
    apply H0. intros s. now rewrite sleep_state. }
  destruct (H st) as (l & Hl & Hb & Hn). exists l. repeat split; auto.
Qed.

(** X20.  Whatever the turns of the run loop and whatever the world, the clicks
    injected are kept and only extended, always at configured points, and
    the template cache of the detection manager keeps its entries and its
    consistency with the configuration. *)
Theorem run_loop_clicks_and_cache {cv : OpenCV} (w : World) (config : AppConfig.t)
    (turns : list turn) (st : Engine.state) :
  let st' := (AutomationEngine._run_loop w config turns st).2 in
  (exists l, Engine.injected st' = Engine.injected st ++ l /\ Forall (is_button config) l) /\
  Detection._cache (Engine._detection st) ⊆ Detection._cache (Engine._detection st') /\
  (cache_consistent (AppConfig.templates config) (Detection._cache (Engine._detection st)) ->
   cache_consistent (AppConfig.templates config) (Detection._cache (Engine._detection st'))).
Proof.
  destruct (run_loop_keeps_run w config turns st) as (Hc & Hk & Hl & _).
  cbv zeta. auto.
Qed.

(** X21.  With a clock that never goes back and timers that are not ahead of it,
    the run loop never moves a timer backwards nor ahead of the clock,
    whatever the turns and the outcome. *)
Theorem run_loop_timers {cv : OpenCV} (w : World) (config : AppConfig.t)
    (turns : list turn) (st : Engine.state) :
  clock_monotone w -> timers_ok w st ->
  let st' := (AutomationEngine._run_loop w config turns st).2 in
  timers_ok w st' /\
  (Engine._last_collect_ts st <= Engine._last_collect_ts st')%Q /\
  (Engine._last_refresh_ts st <= Engine._last_refresh_ts st')%Q.
Proof.
  intros Hmono [Hc Hr]. cbv zeta.
  destruct (run_loop_keeps_run w config turns st) as (_ & _ & _ & Hn & Htc & Htr).
  set (st' := (AutomationEngine._run_loop w config turns st).2) in *.
  assert (Hstep : forall timer : Engine.state -> Q,
             (timer st <= time_time w (Engine.clock_reads st))%Q ->
             timer_step w timer st st' ->
             (timer st' <= time_time w (Engine.clock_reads st'))%Q /\
             (timer st <= timer st')%Q).
  { intros timer Hok [-> | (n & Hn' & ->)].
    - split; [| apply Qle_refl].
      eapply Qle_trans; [exact Hok | apply Hmono; exact Hn].
    - split; [apply Hmono; lia |].
      eapply Qle_trans; [exact Hok | apply Hmono; lia]. }
  destruct (Hstep _ Hc Htc) as [Hc1 Hc2]. destruct (Hstep _ Hr Htr) as [Hr1 Hr2].
  repeat split; assumption.
Qed.

Lemma run_loop_timers_witness :
  let st' := (AutomationEngine._run_loop (cv := Sample.cv) Sample.world
                (Sample.config [Sample.trade_b] 300 60)
                [Running; Paused; Running; Stop] AutomationEngine.init).2 in
  timers_ok Sample.world st' /\ (0 <= Engine._last_collect_ts st')%Q.
Proof.
  assert (Hm : clock_monotone Sample.world).
  { intros n m H. unfold Qle. cbn. lia. }
  assert (Hok : timers_ok Sample.world AutomationEngine.init).
  { split; discriminate. }
  destruct (run_loop_timers (cv := Sample.cv) Sample.world
              (Sample.config [Sample.trade_b] 300 60)
              [Running; Paused; Running; Stop] AutomationEngine.init Hm Hok)
    as (H1 & H2 & _).
  split; [exact H1 | exact H2].
Defined.

(** ** The pause event *)

(** X22.  [toggle_pause] answers whether the engine is paused afterwards; it
    always changes the paused state, and toggling twice restores it.  An
    engine starts unpaused. *)
Theorem toggle_pause_spec (_pause_event : bool) :
  let answer := (PauseEvent.toggle_pause _pause_event).1 in
  let after := (PauseEvent.toggle_pause _pause_event).2 in
  answer = PauseEvent.is_paused after /\
  PauseEvent.is_paused after = negb (PauseEvent.is_paused _pause_event) /\
  (PauseEvent.toggle_pause after).2 = _pause_event /\
  (PauseEvent.toggle_pause after).1 = negb answer /\
  PauseEvent.is_paused PauseEvent.init = false.
Proof. destruct _pause_event; repeat split. Qed.

(** X23.  After [pause], and until [resume] or [stop], every turn of the run loop
    finds the engine paused: nothing is evaluated, nothing is clicked, no
    timer moves; the state of the engine stays what it was. *)
Theorem paused_loop_idle {cv : OpenCV} (w : World) (config : AppConfig.t)
    (_pause_event : bool) (n : nat) (st : Engine.state) :
  let paused := PauseEvent.pause _pause_event in
  PauseEvent.is_paused paused = true /\
  PauseEvent.turn_found false paused = Paused /\
  AutomationEngine._run_loop w config (repeat (PauseEvent.turn_found false paused) n) st
  = (Ok tt, st).
Proof. cbv zeta. repeat split. apply run_loop_paused. Qed.

(** ** config_loader.py: regions, points and colour ranges *)

Lemma getitem_ok (mapping : gmap string Z) (key : string) :
  key ∈ dom mapping -> exists v, mapping !! key = Some v /\ Mapping.getitem mapping key = Ok v.
Proof.
  intros H. apply elem_of_dom in H as [v Hv]. exists v.
  unfold Mapping.getitem. now rewrite Hv.
Qed.

(** X24.  [Region.from_mapping] raises [ValueError] exactly when one of the four
    keys is missing, and never lets a [KeyError] out; otherwise the region
    it returns has the four values of the mapping, other keys being
    ignored.  It reads back what [to_monitor] writes.  [Point.from_mapping]
    likewise turns a missing [x] or [y] into [ValueError]. *)
Theorem from_mapping_spec (mapping : gmap string Z) :
  match Mapping.Region_from_mapping mapping with
  | Ok r => Mapping.Region_to_monitor r ⊆ mapping
  | Raise e =>
      e = ValueError /\ exists key, key ∈ Mapping.required_keys /\ mapping !! key = None
  end /\
  (forall r, Mapping.Region_from_mapping (Mapping.Region_to_monitor r) = Ok r) /\
  match Mapping.Point_from_mapping mapping with
  | Ok p =>
      mapping !! "x"%string = Some (Point.x p) /\ mapping !! "y"%string = Some (Point.y p)
  | Raise e =>
      e = ValueError /\ (mapping !! "x"%string = None \/ mapping !! "y"%string = None)
  end.
Proof.
  split; [| split].
  - unfold Mapping.Region_from_mapping.
    destruct (bool_decide (Mapping.required_keys ∖ dom mapping = ∅)) eqn:E; cbn [negb].
    + apply bool_decide_eq_true in E.
      assert (Hin : forall key, key ∈ Mapping.required_keys -> key ∈ dom mapping).
      { intros key Hk. destruct (decide (key ∈ dom mapping)) as [| Hn]; [assumption |].
        exfalso. apply (not_elem_of_empty (C := gset string) key). rewrite <- E.
        apply elem_of_difference. now split. }
      destruct (getitem_ok mapping "left") as (l & Hl & ->);
        [apply Hin; unfold Mapping.required_keys; rewrite !elem_of_union, !elem_of_singleton; auto |].
      destruct (getitem_ok mapping "top") as (t & Ht & ->);
        [apply Hin; unfold Mapping.required_keys; rewrite !elem_of_union, !elem_of_singleton; auto |].
      destruct (getitem_ok mapping "width") as (w0 & Hw & ->);
        [apply Hin; unfold Mapping.required_keys; rewrite !elem_of_union, !elem_of_singleton; auto |].
      destruct (getitem_ok mapping "height") as (h & Hh & ->);
        [apply Hin; unfold Mapping.required_keys; rewrite !elem_of_union, !elem_of_singleton; auto |].
      cbn. unfold Mapping.Region_to_monitor. cbn.
      repeat (apply insert_subseteq_l; [assumption |]). apply map_empty_subseteq.
    + apply bool_decide_eq_false in E. split; [reflexivity |].
      apply set_choose_L in E as [key Hk]. exists key.
      apply elem_of_difference in Hk as [Hk Hn]. split; [exact Hk |].
      now apply not_elem_of_dom.
  - intros [l t w0 h]. reflexivity.
  - unfold Mapping.Point_from_mapping, Mapping.getitem.
    destruct (mapping !! "x"%string) as [x |]; cbn; [| auto].
    destruct (mapping !! "y"%string) as [y |]; cbn; auto.
Qed.

Lemma from_sequence_loop_app (ranges : list HSVRange.t) :
  forall done, Sequence.from_sequence_loop (map range_pair ranges) done = inr (done ++ ranges).
Proof.
  induction ranges as [| [[[l0 l1] l2] [[u0 u1] u2]] rest IH]; intros done; cbn.
  - now rewrite app_nil_r.
  - rewrite IH, <- app_assoc. reflexivity.
Qed.

Lemma from_sequence_loop_spec (values : list (list (list Z))) :
  forall done,
    match Sequence.from_sequence_loop values done with
    | inr ranges =>
        exists new,
          ranges = done ++ new /\
          Forall2
            (fun member rg =>
               exists lower upper,
                 member = [lower; upper] /\
                 take 3 lower = (range_pair rg) !!! 0%nat /\
                 take 3 upper = (range_pair rg) !!! 1%nat)
            values new
    | inl Sequence.PairLength => exists member, member ∈ values /\ length member <> 2%nat
    | inl Sequence.ShortTriplet =>
        exists member bound, member ∈ values /\ bound ∈ member /\ (length bound < 3)%nat
    end.
Proof.
  assert (Ht : forall t,
             match Sequence.triplet t with
             | inr (a, b, c) => take 3 t = [a; b; c]
             | inl e => e = Sequence.ShortTriplet /\ (length t < 3)%nat
             end).
  { intros [| a [| b [| c t]]]; cbn; auto; split; auto; lia. }
  induction values as [| member rest IH]; intros done; cbn.
  - exists []. rewrite app_nil_r. split; [reflexivity | constructor].
  - destruct member as [| lower [| upper [| extra member]]];
      try (exists []; split; [left |]; cbn; lia);
      try (eexists; split; [left |]; cbn; lia).
    pose proof (Ht lower) as Hl. pose proof (Ht upper) as Hu.
    destruct (Sequence.triplet lower) as [el | [[l0 l1] l2]].
    + destruct Hl as [-> Hl]. exists [lower; upper], lower.
      split; [left |]. split; [left | exact Hl].
    + destruct (Sequence.triplet upper) as [eu | [[u0 u1] u2]].
      * destruct Hu as [-> Hu]. exists [lower; upper], upper.
        split; [left |]. split; [right; left | exact Hu].
      * specialize (IH (done ++ [HSVRange.mk (l0, l1, l2) (u0, u1, u2)])).
        destruct (Sequence.from_sequence_loop rest _) as [[|] | ranges].
        -- destruct IH as (p & Hp & Hn). exists p. split; [now right | exact Hn].
        -- destruct IH as (p & b & Hp & Hb & Hn). exists p, b.
           split; [now right | auto].
        -- destruct IH as (new & -> & Hf).
           exists (HSVRange.mk (l0, l1, l2) (u0, u1, u2) :: new).
           rewrite <- app_assoc. split; [reflexivity |].
           constructor; [| exact Hf]. exists lower, upper. cbn. auto.
Qed.

(** X25.  [HSVRange.from_sequence] returns one range per member, in order, made
    of the first three components of each bound (further components are
    ignored); it raises [ValueError] only if some member is not a pair and
    [IndexError] only if some bound has fewer than three components.  It
    reads back the ranges written as pairs of triplets. *)
Theorem from_sequence_spec (values : list (list (list Z))) :
  match Sequence.from_sequence values with
  | inr ranges =>
      Forall2
        (fun member rg =>
           exists lower upper,
             member = [lower; upper] /\
             take 3 lower = (range_pair rg) !!! 0%nat /\
             take 3 upper = (range_pair rg) !!! 1%nat)
        values ranges
  | inl Sequence.PairLength => exists member, member ∈ values /\ length member <> 2%nat
  | inl Sequence.ShortTriplet =>
      exists member bound, member ∈ values /\ bound ∈ member /\ (length bound < 3)%nat
  end /\
  (forall ranges, Sequence.from_sequence (map range_pair ranges) = inr ranges).
Proof.
  split.
  - pose proof (from_sequence_loop_spec values []) as H.
    unfold Sequence.from_sequence.
    destruct (Sequence.from_sequence_loop values []) as [[|] | ranges]; try exact H.
    destruct H as (new & -> & Hf). exact Hf.
  - intros ranges. apply (from_sequence_loop_app ranges []).
Qed.
